(** * amazing_trace.py: the traceroute text parser and its raw trace source

    A shallow embedding of [execute_traceroute] and [parse_traceroute]
    (src/amazing_trace.py, lines 14-134).  Python strings are sequences of
    Unicode code points; exceptions are explicit results; the [for] loops
    of the source are folds that thread the loop state. *)

From Stdlib Require Import String Ascii.
From Stdlib Require Import List NArith ZArith Bool Lia.
From Stdlib Require Import Floats.SpecFloat.
From Stdlib Require Import Sorting.Sorted.
Import ListNotations.

Set Implicit Arguments.
Local Open Scope N_scope.

(** ** Strings *)

(** A Python [str]: a sequence of Unicode code points. *)
Definition char := N.
Definition str := list char.

(** ASCII literals of the source, as code points. *)
Definition py (s : string) : str :=
  map N_of_ascii (list_ascii_of_string s).

Fixpoint str_eqb (a b : str) : bool :=
  match a, b with
  | [], [] => true
  | x :: a', y :: b' => (x =? y) && str_eqb a' b'
  | _, _ => false
  end.

Definition LF : char := 10.
Definition CR : char := 13.

(** [str.isspace] on one code point: the table CPython uses for
    [str.strip()], [str.split()] and [int()] (Py_UNICODE_ISSPACE). *)
Definition is_space (c : char) : bool :=
  ((9 <=? c) && (c <=? 13)) || ((28 <=? c) && (c <=? 32))
  || (c =? 133) || (c =? 160) || (c =? 5760)
  || ((8192 <=? c) && (c <=? 8202))
  || (c =? 8232) || (c =? 8233) || (c =? 8239) || (c =? 8287)
  || (c =? 12288).

(** Line boundaries of [str.splitlines] (Py_UNICODE_ISLINEBREAK). *)
Definition is_linebreak (c : char) : bool :=
  ((10 <=? c) && (c <=? 13)) || ((28 <=? c) && (c <=? 30))
  || (c =? 133) || (c =? 8232) || (c =? 8233).

(** First code point of each run of ten decimal digits (category Nd,
    Unicode 14.0 as shipped with CPython 3.11); the digit value is the
    offset in the run. *)
Definition decimal_runs : list N :=
  [48; 1632; 1776; 1984; 2406; 2534; 2662; 2790; 2918; 3046; 3174; 3302;
   3430; 3558; 3664; 3792; 3872; 4160; 4240; 6112; 6160; 6470; 6608; 6784;
   6800; 6992; 7088; 7232; 7248; 42528; 43216; 43264; 43472; 43504; 43600;
   44016; 65296; 66720; 68912; 69734; 69872; 69942; 70096; 70384; 70736;
   70864; 71248; 71360; 71472; 71904; 72016; 72784; 73040; 73120; 92768;
   92864; 93008; 120782; 120792; 120802; 120812; 120822; 123200; 123632;
   125264; 130032].

(** [unicodedata.decimal]: the value of a decimal digit, if it is one. *)
Definition decimal_value (c : char) : option N :=
  match find (fun s => (s <=? c) && (c <? s + 10)) decimal_runs with
  | Some s => Some (c - s)
  | None => None
  end.

(** [\d] of the [re] module on a [str] pattern, and [str.isdecimal]. *)
Definition is_decimal (c : char) : bool :=
  match decimal_value c with Some _ => true | None => false end.

(** The range [0-9] of a character class: ASCII digits only. *)
Definition is_ascii_digit (c : char) : bool := (48 <=? c) && (c <=? 57).

Fixpoint dropwhile (p : char -> bool) (s : str) : str :=
  match s with
  | [] => []
  | c :: s' => if p c then dropwhile p s' else s
  end.

(** [s.lstrip(chars)], [s.rstrip(chars)] and [s.strip(chars)], with the
    set of stripped characters as a predicate. *)
Definition lstrip_by (p : char -> bool) (s : str) : str := dropwhile p s.
Definition rstrip_by (p : char -> bool) (s : str) : str :=
  rev (dropwhile p (rev s)).
Definition strip_by (p : char -> bool) (s : str) : str :=
  rstrip_by p (lstrip_by p s).

(** [s.strip()] *)
Definition strip (s : str) : str := strip_by is_space s.

(** [s.strip("()")] *)
Definition is_paren (c : char) : bool := (c =? 40) || (c =? 41).
Definition strip_parens (s : str) : str := strip_by is_paren s.

Definition null {A} (l : list A) : bool :=
  match l with [] => true | _ => false end.

(** [s.split()]: maximal runs of non-whitespace; [cur] is the token being
    read. *)
Fixpoint split_from (cur : str) (s : str) : list str :=
  match s with
  | [] => if null cur then [] else [cur]
  | c :: s' =>
      if is_space c
      then (if null cur then split_from [] s' else cur :: split_from [] s')
      else split_from (cur ++ [c]) s'
  end.
Definition split (s : str) : list str := split_from [] s.

(** [s.splitlines()]: a line ends at a line boundary, CR LF counts as one
    boundary, and no empty last line is produced. *)
Fixpoint splitlines_from (cur : str) (s : str) : list str :=
  match s with
  | [] => if null cur then [] else [cur]
  | c :: s' =>
      if is_linebreak c
      then cur :: match s' with
                  | d :: s'' =>
                      if (c =? CR) && (d =? LF)
                      then splitlines_from [] s''
                      else splitlines_from [] s'
                  | [] => splitlines_from [] s'
                  end
      else splitlines_from (cur ++ [c]) s'
  end.
Definition splitlines (s : str) : list str := splitlines_from [] s.

(** ** Exceptions *)

Inductive exn :=
  | ValueError
  | IndexError
  | FileNotFoundError
  | PermissionError
  | CalledProcessError
  | UnicodeEncodeError   (* a subclass of [ValueError] *)
  | LoopBoundExceeded.   (* a [while] loop of the model ran out of fuel *)

Inductive outcome (A : Type) :=
  | Ok (a : A)
  | Raise (e : exn).
Arguments Ok {A} a.
Arguments Raise {A} e.

Definition bind {A B} (c : outcome A) (k : A -> outcome B) : outcome B :=
  match c with
  | Ok a => k a
  | Raise e => Raise e
  end.

Notation "x <- c ;; k" := (bind c (fun x => k))
  (at level 61, c at next level, right associativity).

(** [try: c  except ValueError: h]; the handler also catches the
    subclasses of [ValueError]. *)
Definition try_except_ValueError {A} (c h : outcome A) : outcome A :=
  match c with
  | Raise ValueError | Raise UnicodeEncodeError => h
  | _ => c
  end.

(** [try: c  except subprocess.CalledProcessError: h] *)
Definition try_except_CalledProcessError {A} (c h : outcome A) : outcome A :=
  match c with
  | Raise CalledProcessError => h
  | _ => c
  end.

(** ** Lists *)

Local Open Scope Z_scope.

Definition len {A} (l : list A) : Z := Z.of_nat (length l).

(** [l[i]] with Python's negative indices. *)
Definition getitem {A} (l : list A) (i : Z) : outcome A :=
  let j := if i <? 0 then i + len l else i in
  if (j <? 0) || (len l <=? j) then Raise IndexError
  else match nth_error l (Z.to_nat j) with
       | Some x => Ok x
       | None => Raise IndexError
       end.

(** A slice bound, resolved as Python does: negative bounds count from the
    end, and the outcome is clamped to [0, len]. *)
Definition slice_bound (n : Z) (dflt : Z) (b : option Z) : Z :=
  match b with
  | None => dflt
  | Some i => if i <? 0 then Z.max 0 (i + n) else Z.min i n
  end.

(** [l[lo:hi]] *)
Definition slice {A} (l : list A) (lo hi : option Z) : list A :=
  let a := slice_bound (len l) 0 lo in
  let b := slice_bound (len l) (len l) hi in
  firstn (Z.to_nat (b - a)) (skipn (Z.to_nat a) l).

(** [x in l] for a list of strings *)
Definition contains (l : list str) (x : str) : bool := existsb (str_eqb x) l.

(** [l.index(x)]: the first position of [x], [ValueError] when absent. *)
Fixpoint index_from (i : Z) (l : list str) (x : str) : outcome Z :=
  match l with
  | [] => Raise ValueError
  | y :: l' => if str_eqb y x then Ok i else index_from (i + 1) l' x
  end.
Definition index (l : list str) (x : str) : outcome Z := index_from 0 l x.

(** [enumerate(l)] *)
Fixpoint enumerate_from {A} (i : Z) (l : list A) : list (Z * A) :=
  match l with
  | [] => []
  | x :: l' => (i, x) :: enumerate_from (i + 1) l'
  end.
Definition enumerate {A} (l : list A) : list (Z * A) := enumerate_from 0 l.

(** ** Loops *)

(** What one iteration of a [for] body does to the loop: fall through to
    the next element, or [break]. *)
Inductive ctl (S : Type) :=
  | Next (s : S)
  | Break (s : S).
Arguments Next {S} s.
Arguments Break {S} s.

(** [for x in xs: body], threading the variables the body assigns. *)
Fixpoint for_in {A S} (xs : list A) (body : A -> S -> outcome (ctl S)) (s : S)
  : outcome S :=
  match xs with
  | [] => Ok s
  | x :: xs' =>
      match body x s with
      | Ok (Next s') => for_in xs' body s'
      | Ok (Break s') => Ok s'
      | Raise e => Raise e
      end
  end.

(** [while cond: body], with [fuel] bounding the number of iterations. *)
Fixpoint while_ {S} (fuel : nat) (cond : S -> bool) (body : S -> outcome S)
  (s : S) : outcome S :=
  if cond s then
    match fuel with
    | O => Raise LoopBoundExceeded
    | Datatypes.S fuel' => s' <- body s ;; while_ fuel' cond body s'
    end
  else Ok s.

(** ** Regular expressions

    The fragment of [re] the parser uses: [\d], a literal character,
    concatenation and bounded repetition [r{lo,hi}]. *)

Inductive regex :=
  | RDigit
  | RChar (c : char)
  | RCat (r1 r2 : regex)
  | RRepeat (lo hi : nat) (r : regex).

(** Backtracking matcher: [re_run r s k] tries every way [r] can consume a
    prefix of [s] (longest repetition first) and asks the continuation [k]
    about the rest. *)
Fixpoint re_run (r : regex) (s : str) (k : str -> bool) {struct r} : bool :=
  match r with
  | RDigit =>
      match s with
      | c :: s' => is_decimal c && k s'
      | [] => false
      end
  | RChar c =>
      match s with
      | d :: s' => (d =? c)%N && k s'
      | [] => false
      end
  | RCat r1 r2 => re_run r1 s (fun s' => re_run r2 s' k)
  | RRepeat lo hi r1 =>
      (fix rep (lo hi : nat) (s : str) (k : str -> bool) {struct hi} : bool :=
         match hi with
         | O => match lo with O => k s | _ => false end
         | S hi' =>
             re_run r1 s (fun s' => rep (Nat.pred lo) hi' s' k)
             || match lo with O => k s | _ => false end
         end) lo hi s k
  end.

(** [re.match(r, s)] is not [None]: the pattern matches at the start of
    [s]; nothing anchors its end. *)
Definition re_match (r : regex) (s : str) : bool := re_run r s (fun _ => true).

(** [r'\d{1,3}(?:\.\d{1,3}){3}'] (lines 110 and 114) *)
Definition ipv4_pattern : regex :=
  RCat (RRepeat 1 3 RDigit)
       (RRepeat 3 3 (RCat (RChar 46%N) (RRepeat 1 3 RDigit))).

(** [re.sub(r'[^0-9.]', '', val)] (line 94): drop every character that is
    neither an ASCII digit nor a dot. *)
Definition re_sub_non_numeric (val : str) : str :=
  filter (fun c => is_ascii_digit c || (c =? 46)%N) val.

(** ** Numbers *)

(** A Python [float]: an IEEE 754 binary64 value. *)
Definition float := spec_float.

(** The binary64 value nearest to [m / d], ties to even. *)
Definition binary64_of_ratio (m : N) (d : positive) : float :=
  match m with
  | N0 => S754_zero false
  | Npos p =>
      let '(q, e, l) := SFdiv_core_binary 53 1024 (Zpos p) 0 (Zpos d) 0 in
      binary_round_aux 53 1024 false q e l
  end.

Definition pow10 (n : nat) : positive := Nat.iter n (Pos.mul 10) 1%positive.

(** Leading ASCII digits of [s]: their value on top of [acc], how many
    there were on top of [n], and the rest of [s]. *)
Fixpoint read_digits (acc : N) (n : nat) (s : str) : N * nat * str :=
  match s with
  | c :: s' =>
      if is_ascii_digit c
      then read_digits (10 * acc + (c - 48))%N (S n) s'
      else (acc, n, s)
  | [] => (acc, n, [])
  end.

(** [float(s)] for [s] over the alphabet [0-9.], the only strings that
    reach it (line 96, after [re.sub]): digits with at most one dot and at
    least one digit, correctly rounded; anything else in that alphabet is
    a [ValueError].  Signs, exponents, [inf] and [nan] cannot occur there
    and are not modelled. *)
Definition py_float (s : str) : outcome float :=
  let '(i, ni, r) := read_digits 0 0 s in
  match r with
  | [] =>
      match ni with
      | O => Raise ValueError
      | _ => Ok (binary64_of_ratio i 1)
      end
  | c :: r' =>
      if (c =? 46)%N then
        let '(m, nf, r'') := read_digits i 0 r' in
        if null r'' && negb (Nat.eqb (ni + nf) 0)
        then Ok (binary64_of_ratio m (pow10 nf))
        else Raise ValueError
      else Raise ValueError
  end.

(** Digits after the first one of an integer literal: decimal digits,
    with single underscores allowed between two digits.  [us] tells that
    the previous character was an underscore; the outcome is the value and
    the number of digits read. *)
Fixpoint int_digits (us : bool) (acc : N) (cnt : N) (s : str)
  : option (N * N) :=
  match s with
  | [] => if us then None else Some (acc, cnt)
  | c :: s' =>
      if (c =? 95)%N
      then (if us then None else int_digits true acc cnt s')
      else match decimal_value c with
           | Some d => int_digits false (10 * acc + d)%N (cnt + 1)%N s'
           | None => None
           end
  end.

(** An unsigned integer literal: it starts with a digit. *)
Definition int_literal (s : str) : option (N * N) :=
  match s with
  | c :: s' =>
      match decimal_value c with
      | Some d => int_digits false d 1%N s'
      | None => None
      end
  | [] => None
  end.

Section Parser.

(** [sys.get_int_max_str_digits()]: the interpreter's limit on the number
    of digits [int] converts (4300 by default since CPython 3.11, 0 when
    the limit is off or the interpreter has none). *)
Variable int_max_str_digits : N.

(** [int(s)] for a [str]: surrounding whitespace is ignored, then an
    optional sign and a literal in base 10; everything else, and a
    literal over the digit limit, is a [ValueError]. *)
Definition py_int (s : str) : outcome Z :=
  let s := strip s in
  let '(neg, body) :=
    match s with
    | c :: s' =>
        if (c =? 43)%N then (false, s')
        else if (c =? 45)%N then (true, s')
        else (false, s)
    | [] => (false, s)
    end in
  match int_literal body with
  | Some (n, cnt) =>
      if (0 <? int_max_str_digits)%N && (int_max_str_digits <? cnt)%N
      then Raise ValueError
      else Ok (if neg then - Z.of_N n else Z.of_N n)
  | None => Raise ValueError
  end.

(** ** The hop record (the dict appended at lines 127-132) *)

Record Hop := {
  hop : Z;
  ip : option str;
  hostname : option str;
  rtt : list (option float)
}.

(** ** [parse_traceroute], lines 34-134 *)

(** Lines 91-98: the timing value carried by the token before an ["ms"]. *)
Definition timing_value (val : str) : outcome (option float) :=
  if str_eqb val (py "*") then Ok None
  else
    let cleaned := re_sub_non_numeric val in
    try_except_ValueError
      (f <- py_float cleaned ;; Ok (Some f))
      (Ok None).

(** Lines 88-98: one iteration of the loop over [enumerate(tokens)]. *)
Definition rtts_body (tokens : list str) (it : Z * str)
  (rtts : list (option float)) : outcome (ctl (list (option float))) :=
  let '(i, token) := it in
  if str_eqb token (py "ms") && (0 <? i) then
    val <- getitem tokens (i - 1) ;;
    v <- timing_value val ;;
    Ok (Next (rtts ++ [v]))
  else Ok (Next rtts).

(** Lines 87-101: collect, pad with [None] up to three, keep three. *)
Definition collect_rtts (tokens : list str) : outcome (list (option float)) :=
  rtts <- for_in (enumerate tokens) (rtts_body tokens) [] ;;
  rtts <- while_ 3 (fun rtts => len rtts <? 3)
                   (fun rtts => Ok (rtts ++ [None])) rtts ;;
  Ok (slice rtts None (Some 3)).

(** Lines 103-104: the tokens searched for the address. *)
Definition id_tokens_of (tokens : list str) : outcome (list str) :=
  id_end <- (if contains tokens (py "ms")
             then (i <- index tokens (py "ms") ;; Ok (i - 1))
             else Ok (len tokens)) ;;
  Ok (if 1 <? id_end
      then slice tokens (Some 1) (Some id_end)
      else slice tokens (Some 1) None).

(** Lines 108-116: one iteration of the loop over [enumerate(id_tokens)];
    the state is [(ip, hostname)]. *)
Definition identity_body (id_tokens : list str) (it : Z * str)
  (st : option str * option str)
  : outcome (ctl (option str * option str)) :=
  let '(j, token) := it in
  let '(ip, hostname) := st in
  let candidate := strip_parens token in
  if re_match ipv4_pattern candidate then
    let ip := Some candidate in
    if 0 <? j then
      p <- getitem id_tokens (j - 1) ;;
      let prev := strip_parens p in
      if negb (re_match ipv4_pattern prev) then
        h <- getitem id_tokens (j - 1) ;;
        Ok (Break (ip, Some h))
      else Ok (Break (ip, hostname))
    else Ok (Break (ip, hostname))
  else Ok (Next (ip, hostname)).

(** Lines 118-121: timeout reconciliation. *)
Definition reconcile_timeout (tokens : list str)
  (st : option str * option str) : option str * option str :=
  let '(ip, hostname) := st in
  match ip with
  | None => if contains tokens (py "*") then (None, None) else (ip, hostname)
  | Some _ => (ip, hostname)
  end.

(** Lines 123-125: a hostname that is the address again is dropped. *)
Definition suppress_self_reference (st : option str * option str)
  : option str * option str :=
  let '(ip, hostname) := st in
  match hostname, ip with
  | Some h, Some a =>
      if str_eqb (strip_parens h) a then (ip, None) else (ip, hostname)
  | _, _ => (ip, hostname)
  end.

(** Lines 106-125: the address and the hostname of a hop line. *)
Definition identity_of (tokens : list str)
  : outcome (option str * option str) :=
  id_tokens <- id_tokens_of tokens ;;
  st <- for_in (enumerate id_tokens) (identity_body id_tokens) (None, None) ;;
  Ok (suppress_self_reference (reconcile_timeout tokens st)).

(** Lines 82-85: the hop number of a line, [None] when the handler of
    [ValueError] ends the iteration with [continue]. *)
Definition hop_number (tokens : list str) : outcome (option Z) :=
  try_except_ValueError
    (t0 <- getitem tokens 0 ;;
     hop <- py_int t0 ;;
     Ok (Some hop))
    (Ok None).

(** Lines 79-132: the body of the loop over the lines.  [None] is an
    iteration that ends in [continue]; [Some h] is the dict it appends. *)
Definition hop_of_line (line : str) : outcome (option Hop) :=
  if null (strip line) then Ok None
  else
    let tokens := split line in
    parsed <- hop_number tokens ;;
    match parsed with
    | None => Ok None
    | Some hop =>
        rtts <- collect_rtts tokens ;;
        st <- identity_of tokens ;;
        Ok (Some {| hop := hop; ip := fst st; hostname := snd st;
                    rtt := rtts |})
    end.

(** Lines 78-132: one iteration of [for line in lines[1:]], on the list
    [result] built so far. *)
Definition lines_body (line : str) (result : list Hop)
  : outcome (ctl (list Hop)) :=
  h <- hop_of_line line ;;
  match h with
  | None => Ok (Next result)
  | Some h => Ok (Next (result ++ [h]))
  end.

Definition parse_traceroute (traceroute_output : str) : outcome (list Hop) :=
  let result := [] in
  let lines := splitlines (strip traceroute_output) in
  if null lines then Ok result
  else for_in (slice lines (Some 1) None) lines_body result.

End Parser.

(** ** [execute_traceroute], lines 14-31 *)

(** A Python [bytes] object: a sequence of octets. *)
Definition bytes := list N.

(** The values [execute_traceroute] can return. *)
Inductive pyvalue :=
  | PyStr (s : str)
  | PyBytes (b : bytes).

(** What the operating system does with an argument vector: the program
    cannot be started, or it runs to an exit status with what it wrote. *)
Inductive spawn_error := ENOENT | EACCES.
Inductive spawn :=
  | SpawnFails (e : spawn_error)
  | Exits (returncode : Z) (out err : bytes).

Record CompletedProcess := {
  args : list str;
  returncode : Z;
  stdout : bytes;
  stderr : bytes
}.

(** A code point the file system encoding can encode, for UTF-8 with the
    [surrogateescape] handler (CPython's setting on POSIX): every
    character of a [str] but the surrogates outside U+DC80..U+DCFF. *)
Definition fs_encodable (c : char) : bool :=
  ((c <=? 1114111)
   && negb ((55296 <=? c) && (c <=? 57343)
            && negb ((56448 <=? c) && (c <=? 56575))))%N.

(** The conversion of one argument to the bytes handed to the operating
    system: a [str] that cannot be encoded is a [UnicodeEncodeError],
    an encoded argument with an embedded NUL a [ValueError]. *)
Definition fs_convert (arg : str) : outcome unit :=
  if negb (forallb fs_encodable arg) then Raise UnicodeEncodeError
  else if existsb (N.eqb 0) arg then Raise ValueError
  else Ok tt.

(** The conversion of an argument vector, argument by argument. *)
Fixpoint fs_convert_all (argv : list str) : outcome unit :=
  match argv with
  | [] => Ok tt
  | arg :: argv' => _ <- fs_convert arg ;; fs_convert_all argv'
  end.

(** [subprocess.run(args, capture_output=True, check=check)]: the
    arguments are converted first, and nothing is started when one of
    them cannot be; a program that cannot be started raises the
    [OSError] of the failure, and a non-zero exit status raises
    [CalledProcessError] only under [check=True].  Without [text=True]
    the captured output is [bytes]. *)
Definition subprocess_run (os : list str -> spawn) (argv : list str)
  (check : bool) : outcome CompletedProcess :=
  match fs_convert_all argv with
  | Raise e => Raise e
  | Ok _ =>
    match os argv with
    | SpawnFails ENOENT => Raise FileNotFoundError
    | SpawnFails EACCES => Raise PermissionError
    | Exits rc out err =>
        if check && negb (rc =? 0) then Raise CalledProcessError
        else Ok {| args := argv; returncode := rc; stdout := out;
                   stderr := err |}
    end
  end.

(** Lines 24-31.  The call at line 26 does not pass [check], so it runs
    with [check=False]; the handler's logging is not modelled. *)
Definition execute_traceroute (os : list str -> spawn) (destination : str)
  : outcome pyvalue :=
  try_except_CalledProcessError
    (result <- subprocess_run os
                 [py "traceroute"; py "-I"; destination] false ;;
     Ok (PyBytes (stdout result)))
    (Ok (PyStr (py ""))).

(** The returned value is a [str]. *)
Definition returns_str (r : outcome pyvalue) : bool :=
  match r with
  | Ok (PyStr _) => true
  | _ => false
  end.

(** ** The parser in the words of its specification *)

(** The timing value of the token before an ["ms"]: absent for the
    timeout marker and for a token that does not parse. *)
Definition timing (val : str) : option float :=
  if str_eqb val (py "*") then None
  else match py_float (re_sub_non_numeric val) with
       | Ok f => Some f
       | Raise _ => None
       end.

(** Timing values in order of appearance: one for each ["ms"] that has a
    token before it.  [prev] is the token before [rest], if any. *)
Fixpoint timings_after (prev : option str) (rest : list str)
  : list (option float) :=
  match rest with
  | [] => []
  | t :: rest' =>
      match prev with
      | Some p => if str_eqb t (py "ms") then [timing p] else []
      | None => []
      end ++ timings_after (Some t) rest'
  end.
Definition timings (tokens : list str) : list (option float) :=
  timings_after None tokens.

(** Position of the first occurrence of [x]. *)
Fixpoint position (x : str) (l : list str) : option nat :=
  match l with
  | [] => None
  | y :: l' =>
      if str_eqb y x then Some O
      else match position x l' with
           | Some n => Some (S n)
           | None => None
           end
  end.

(** The elements of [l] at positions strictly between [a] and [b]. *)
Definition strictly_between {A} (a b : nat) (l : list A) : list A :=
  firstn (b - a - 1) (skipn (a + 1) l).

(** The span searched for the address: the tokens strictly between the
    hop number and the timing token in front of the first ["ms"]; every
    token after the hop number when there is no ["ms"], or when the first
    one is at position 1 or 2. *)
Definition identity_span (tokens : list str) : list str :=
  match position (py "ms") tokens with
  | Some i =>
      if Nat.ltb 2 i then strictly_between 0 (i - 1) tokens
      else tl tokens
  | None => tl tokens
  end.

(** Split at every occurrence of [sep]; [cur] is the group being read. *)
Fixpoint split_on (sep : char) (cur : str) (s : str) : list str :=
  match s with
  | [] => [cur]
  | c :: s' =>
      if (c =? sep)%N then cur :: split_on sep [] s'
      else split_on sep (cur ++ [c]) s'
  end.

(** A group of one to three decimal digits. *)
Definition digit_group (g : str) : bool :=
  Nat.leb 1 (length g) && Nat.leb (length g) 3 && forallb is_decimal g.

(** The IPv4 shape: exactly four dot-separated groups of one to three
    digits, and nothing else. *)
Definition ipv4_shape (s : str) : bool :=
  let groups := split_on 46%N [] s in
  Nat.eqb (length groups) 4 && forallb digit_group groups.

(** Left-to-right scan of a span with a test [shape] on stripped tokens:
    the first token that passes is the address, the token before it in
    the span, if there is one and it does not pass, is the hostname. *)
Fixpoint scan_after (shape : str -> bool) (prev : option str)
  (span : list str) : option str * option str :=
  match span with
  | [] => (None, None)
  | t :: rest =>
      if shape (strip_parens t)
      then (Some (strip_parens t),
            match prev with
            | Some p => if shape (strip_parens p) then None else Some p
            | None => None
            end)
      else scan_after shape (Some t) rest
  end.
Definition scan (shape : str -> bool) (span : list str)
  : option str * option str :=
  scan_after shape None span.

(** The first token of a line, when the line has one. *)
Definition first_token (line : str) : option str :=
  match split line with
  | t :: _ => Some t
  | [] => None
  end.

(** The lines after the header. *)
Definition body_lines (traceroute_output : str) : list str :=
  tl (splitlines (strip traceroute_output)).

Fixpoint nondecreasing (l : list Z) : bool :=
  match l with
  | x :: ((y :: _) as l') => (x <=? y) && nondecreasing l'
  | _ => true
  end.

(** The hop number of a line: its first token, converted by [int] under
    the digit limit [m]; [None] for a line that is not a hop line. *)
Definition line_hop (m : N) (line : str) : option Z :=
  match first_token line with
  | Some t =>
      match py_int m t with
      | Ok n => Some n
      | Raise _ => None
      end
  | None => None
  end.

(** The hop numbers of the hop lines among [lines], in line order. *)
Definition hop_numbers (m : N) (lines : list str) : list Z :=
  flat_map (fun line => match line_hop m line with
                        | Some n => [n]
                        | None => []
                        end) lines.

(** The record of a hop line, field by field. *)
Definition line_record (m : N) (line : str) : option Hop :=
  match line_hop m line with
  | Some n =>
      let tokens := split line in
      let st := scan (re_match ipv4_pattern) (identity_span tokens) in
      Some {| hop := n; ip := fst st; hostname := snd st;
              rtt := firstn 3 (timings tokens ++ [None; None; None]) |}
  | None => None
  end.

(** The records of [lines], in line order. *)
Definition records_of (m : N) (lines : list str) : list Hop :=
  flat_map (fun line => match line_record m line with
                        | Some h => [h]
                        | None => []
                        end) lines.

(** A line is a hop line when its first token converts. *)
Definition is_hop_line (m : N) (line : str) : bool :=
  match line_hop m line with
  | Some _ => true
  | None => false
  end.

(** A text from its lines, each ended by a line feed, as the tracer
    prints it. *)
Definition text (lines : list str) : str :=
  flat_map (fun l => l ++ [LF]) lines.

(** [x] comes immediately before [y] in [l]. *)
Definition adjacent {A} (x y : A) (l : list A) : Prop :=
  exists pre post, l = pre ++ x :: y :: post.

(** Groups joined by dots. *)
Fixpoint join_dots (groups : list str) : str :=
  match groups with
  | [] => []
  | [g] => g
  | g :: groups' => g ++ 46%N :: join_dots groups'
  end.

(** The span as the specification first words it: the tokens strictly
    between the hop number and the first ["ms"], or the rest of the line
    when there is no ["ms"]. *)
Definition stated_span (tokens : list str) : list str :=
  match position (py "ms") tokens with
  | Some i => strictly_between 0 i tokens
  | None => tl tokens
  end.

(** Scenario A of the specification, and the record it must give. *)
Definition scenario_A_line : str :=
  py "1  rtr.local (10.0.0.1)  0.334 ms  0.311 ms  0.302 ms".

Definition scenario_A_record : Hop :=
  {| hop := 1;
     ip := Some (py "10.0.0.1");
     hostname := Some (py "rtr.local");
     rtt := [Some (S754_finite false 6016809102166983 (-54));
             Some (S754_finite false 5602477936448897 (-54));
             Some (S754_finite false 5440348349863559 (-54))] |}.

(** The position reached by a loop over [enumerate(pre ++ suf)] after
    [pre], with the token last seen. *)
Inductive seen : list str -> option str -> Prop :=
  | seen_nothing : seen [] None
  | seen_token pre p : seen (pre ++ [p]) (Some p).

(** A float that is zero, finite or infinite with a clear sign bit:
    neither negative nor NaN. *)
Definition nonnegative_float (f : float) : bool :=
  match f with
  | S754_zero false | S754_infinity false | S754_finite false _ _ => true
  | _ => false
  end.

(** A string without any whitespace character. *)
Definition whitespace_free (s : str) : Prop :=
  Forall (fun c => is_space c = false) s.

(** ** The sampler's pipeline: [parse_traceroute] on what
    [execute_traceroute] returns (lines 166-167)

    [execute_traceroute] hands over a [bytes] object, so the statements
    of [parse_traceroute] run with [bytes] operands.  Each definition
    below is the one of the parser above, statement by statement, with
    the meaning the statement has on [bytes]. *)

(** Exceptions of the pipeline: those of [exn], and the [TypeError] of
    an operation applied to an operand of the wrong type. *)
Inductive dyn_exn :=
  | Builtin (e : exn)
  | TypeError.

Inductive dyn (A : Type) :=
  | Done (a : A)
  | Fail (e : dyn_exn).
Arguments Done {A} a.
Arguments Fail {A} e.

Definition lift {A} (c : outcome A) : dyn A :=
  match c with
  | Ok a => Done a
  | Raise e => Fail (Builtin e)
  end.

Definition dyn_bind {A B} (c : dyn A) (k : A -> dyn B) : dyn B :=
  match c with
  | Done a => k a
  | Fail e => Fail e
  end.

Notation "x <-- c ;; k" := (dyn_bind c (fun x => k))
  (at level 61, c at next level, right associativity).

(** [try: c  except ValueError: h] *)
Definition dyn_try_except_ValueError {A} (c h : dyn A) : dyn A :=
  match c with
  | Fail (Builtin ValueError) | Fail (Builtin UnicodeEncodeError) => h
  | _ => c
  end.

(** [for x in xs: body] *)
Fixpoint dyn_for_in {A S} (xs : list A) (body : A -> S -> dyn (ctl S))
  (s : S) : dyn S :=
  match xs with
  | [] => Done s
  | x :: xs' =>
      match body x s with
      | Done (Next s') => dyn_for_in xs' body s'
      | Done (Break s') => Done s'
      | Fail e => Fail e
      end
  end.

(** [bytes.isspace] on one octet: ASCII whitespace, the set that
    [bytes.strip()], [bytes.split()] and [int] use. *)
Definition bytes_is_space (c : N) : bool :=
  (((9 <=? c) && (c <=? 13)) || (c =? 32))%N.

(** [b.strip()] *)
Definition bytes_strip (b : bytes) : bytes := strip_by bytes_is_space b.

(** [b.split()] *)
Fixpoint bytes_split_from (cur : bytes) (b : bytes) : list bytes :=
  match b with
  | [] => if null cur then [] else [cur]
  | c :: b' =>
      if bytes_is_space c
      then (if null cur then bytes_split_from [] b'
            else cur :: bytes_split_from [] b')
      else bytes_split_from (cur ++ [c]) b'
  end.
Definition bytes_split (b : bytes) : list bytes := bytes_split_from [] b.

(** [b.splitlines()]: the boundaries are LF, CR and CR LF. *)
Fixpoint bytes_splitlines_from (cur : bytes) (b : bytes) : list bytes :=
  match b with
  | [] => if null cur then [] else [cur]
  | c :: b' =>
      if ((c =? LF) || (c =? CR))%N
      then cur :: match b' with
                  | d :: b'' =>
                      if ((c =? CR) && (d =? LF))%N
                      then bytes_splitlines_from [] b''
                      else bytes_splitlines_from [] b'
                  | [] => bytes_splitlines_from [] b'
                  end
      else bytes_splitlines_from (cur ++ [c]) b'
  end.
Definition bytes_splitlines (b : bytes) : list bytes :=
  bytes_splitlines_from [] b.

(** Digits of an integer literal in [bytes]: ASCII digits only. *)
Fixpoint bytes_int_digits (us : bool) (acc : N) (cnt : N) (b : bytes)
  : option (N * N) :=
  match b with
  | [] => if us then None else Some (acc, cnt)
  | c :: b' =>
      if (c =? 95)%N
      then (if us then None else bytes_int_digits true acc cnt b')
      else if is_ascii_digit c
           then bytes_int_digits false (10 * acc + (c - 48))%N
                  (cnt + 1)%N b'
           else None
  end.

Definition bytes_int_literal (b : bytes) : option (N * N) :=
  match b with
  | c :: b' =>
      if is_ascii_digit c then bytes_int_digits false (c - 48)%N 1%N b'
      else None
  | [] => None
  end.

(** [int(b)] for a [bytes] object, under the digit limit [m]. *)
Definition bytes_int (m : N) (b : bytes) : outcome Z :=
  let b := bytes_strip b in
  let '(neg, body) :=
    match b with
    | c :: b' =>
        if (c =? 43)%N then (false, b')
        else if (c =? 45)%N then (true, b')
        else (false, b)
    | [] => (false, b)
    end in
  match bytes_int_literal body with
  | Some (n, cnt) =>
      if (0 <? m)%N && (m <? cnt)%N
      then Raise ValueError
      else Ok (if neg then - Z.of_N n else Z.of_N n)
  | None => Raise ValueError
  end.

(** [b == s] for a [bytes] object and a [str]: never equal (a warning
    at most, under the interpreter's [-b] flag). *)
Definition bytes_eq_str (b : bytes) (s : str) : bool := false.

(** [s in l] and [l.index(s)] for a [str] and a list of [bytes]. *)
Definition bytes_contains (l : list bytes) (s : str) : bool :=
  existsb (fun b => bytes_eq_str b s) l.

Fixpoint bytes_index_from (i : Z) (l : list bytes) (s : str) : outcome Z :=
  match l with
  | [] => Raise ValueError
  | b :: l' =>
      if bytes_eq_str b s then Ok i else bytes_index_from (i + 1) l' s
  end.

(** Lines 88-98.  [re.sub] with a [str] pattern on a [bytes] object is a
    [TypeError]. *)
Definition bytes_rtts_body (tokens : list bytes) (it : Z * bytes)
  (rtts : list (option float)) : dyn (ctl (list (option float))) :=
  let '(i, token) := it in
  if bytes_eq_str token (py "ms") && (0 <? i) then
    val <-- lift (getitem tokens (i - 1)) ;;
    if bytes_eq_str val (py "*") then Done (Next (rtts ++ [None]))
    else Fail TypeError
  else Done (Next rtts).

(** Lines 87-101. *)
Definition bytes_collect_rtts (tokens : list bytes)
  : dyn (list (option float)) :=
  rtts <-- dyn_for_in (enumerate tokens) (bytes_rtts_body tokens) [] ;;
  rtts <-- lift (while_ 3 (fun rtts => len rtts <? 3)
                   (fun rtts => Ok (rtts ++ [None])) rtts) ;;
  Done (slice rtts None (Some 3)).

(** Lines 103-104. *)
Definition bytes_id_tokens_of (tokens : list bytes) : dyn (list bytes) :=
  id_end <-- lift (if bytes_contains tokens (py "ms")
                   then (i <- bytes_index_from 0 tokens (py "ms") ;;
                         Ok (i - 1))
                   else Ok (len tokens)) ;;
  Done (if 1 <? id_end
        then slice tokens (Some 1) (Some id_end)
        else slice tokens (Some 1) None).

(** Lines 108-116: the first statement of the body, [token.strip("()")]
    with a [str] argument on a [bytes] token, is a [TypeError]. *)
Definition bytes_identity_body (id_tokens : list bytes) (it : Z * bytes)
  (st : option bytes * option bytes)
  : dyn (ctl (option bytes * option bytes)) :=
  Fail TypeError.

(** Lines 106-125.  The comparison of lines 123-125 strips the hostname
    the same way and would fail the same way. *)
Definition bytes_identity_of (tokens : list bytes)
  : dyn (option bytes * option bytes) :=
  id_tokens <-- bytes_id_tokens_of tokens ;;
  st <-- dyn_for_in (enumerate id_tokens) (bytes_identity_body id_tokens)
           (None, None) ;;
  let st :=
    match fst st with
    | None => if bytes_contains tokens (py "*") then (None, None) else st
    | Some _ => st
    end in
  match snd st, fst st with
  | Some _, Some _ => Fail TypeError
  | _, _ => Done st
  end.

(** Lines 82-85. *)
Definition bytes_hop_number (m : N) (tokens : list bytes)
  : dyn (option Z) :=
  dyn_try_except_ValueError
    (t0 <-- lift (getitem tokens 0) ;;
     hop <-- lift (bytes_int m t0) ;;
     Done (Some hop))
    (Done None).

(** Lines 79-132.  The address and the hostname of the record would be
    [bytes]; in the model the two string types have the same carrier. *)
Definition bytes_hop_of_line (m : N) (line : bytes) : dyn (option Hop) :=
  if null (bytes_strip line) then Done None
  else
    let tokens := bytes_split line in
    parsed <-- bytes_hop_number m tokens ;;
    match parsed with
    | None => Done None
    | Some hop =>
        rtts <-- bytes_collect_rtts tokens ;;
        st <-- bytes_identity_of tokens ;;
        Done (Some {| hop := hop; ip := fst st; hostname := snd st;
                      rtt := rtts |})
    end.

(** Lines 78-132. *)
Definition bytes_lines_body (m : N) (line : bytes) (result : list Hop)
  : dyn (ctl (list Hop)) :=
  h <-- bytes_hop_of_line m line ;;
  match h with
  | None => Done (Next result)
  | Some h => Done (Next (result ++ [h]))
  end.

(** [parse_traceroute(b)] for a [bytes] object [b]. *)
Definition parse_traceroute_bytes (m : N) (traceroute_output : bytes)
  : dyn (list Hop) :=
  let result := [] in
  let lines := bytes_splitlines (bytes_strip traceroute_output) in
  if null lines then Done result
  else dyn_for_in (slice lines (Some 1) None) (bytes_lines_body m) result.

(** [parse_traceroute(v)], by the type of [v]. *)
Definition parse_traceroute_value (m : N) (v : pyvalue) : dyn (list Hop) :=
  match v with
  | PyStr s => lift (parse_traceroute m s)
  | PyBytes b => parse_traceroute_bytes m b
  end.

(** Lines 166-167 of [visualize_traceroute]:
    [output = execute_traceroute(destination)] and
    [hops = parse_traceroute(output)]. *)
Definition trace_once (os : list str -> spawn) (m : N) (destination : str)
  : dyn (list Hop) :=
  output <-- lift (execute_traceroute os destination) ;;
  parse_traceroute_value m output.

(** The lines after the header of a [bytes] text. *)
Definition bytes_body_lines (b : bytes) : list bytes :=
  tl (bytes_splitlines (bytes_strip b)).

(** The hop number of a [bytes] line, when it has one. *)
Definition bytes_line_hop (m : N) (line : bytes) : option Z :=
  match bytes_split line with
  | t :: _ =>
      match bytes_int m t with
      | Ok n => Some n
      | Raise _ => None
      end
  | [] => None
  end.

(** A hop line with a token after its hop number. *)
Definition has_identity_token (m : N) (line : bytes) : bool :=
  match bytes_line_hop m line with
  | Some _ => Nat.leb 2 (length (bytes_split line))
  | None => false
  end.

(** A record with a hop number and nothing else. *)
Definition bare_record (n : Z) : Hop :=
  {| hop := n; ip := None; hostname := None; rtt := [None; None; None] |}.

(** ** The sampling loop of [visualize_traceroute], lines 160-174

    The environment of the loop is what the operating system answers to
    the traceroute of each round, [os i], and what the clock reads when
    [time.strftime] is called in that round, [clock i].  The loop's
    effects are logged; printing is not modelled. *)

(** What the loop does to the world. *)
Inductive event :=
  | Slept (seconds : Z)
  | Traced (destination : str).

(** A hop dict after lines 172-173 added its two keys. *)
Record Sample := {
  sample : Hop;
  trace_num : Z;
  timestamp : str
}.

(** [range(n)] *)
Definition py_range (n : Z) : list Z :=
  map Z.of_nat (seq 0 (Z.to_nat n)).

(** [time.sleep(secs)]: a negative length is a [ValueError]. *)
Definition time_sleep (secs : Z) : outcome unit :=
  if secs <? 0 then Raise ValueError else Ok tt.

Section Sampler.

Variable os : Z -> list str -> spawn.
Variable clock : Z -> str.
Variable m : N.

(** Lines 171-174: the loop over the hops of one trace. *)
Definition tag_hops (i : Z) (tstamp : str) (hops : list Hop)
  (all_hops : list Sample) : dyn (list Sample) :=
  dyn_for_in hops
    (fun hop all_hops =>
       Done (Next (all_hops
                   ++ [ {| sample := hop; trace_num := i + 1;
                           timestamp := tstamp |} ])))
    all_hops.

(** Lines 160-174, for the rounds [rounds] still to run: the log so far
    and the list [all_hops] so far go in, the log at the end or at the
    exception comes out with the outcome. *)
Fixpoint sample_rounds (destination : str) (interval : Z)
  (rounds : list Z) (log : list event) (all_hops : list Sample)
  : list event * dyn (list Sample) :=
  match rounds with
  | [] => (log, Done all_hops)
  | i :: rounds' =>
      match (if 0 <? i then time_sleep interval else Ok tt) with
      | Raise e => (log, Fail (Builtin e))
      | Ok _ =>
          let log := if 0 <? i then log ++ [Slept interval] else log in
          let log := log ++ [Traced destination] in
          match trace_once (os i) m destination with
          | Fail e => (log, Fail e)
          | Done hops =>
              match tag_hops i (clock i) hops all_hops with
              | Fail e => (log, Fail e)
              | Done all_hops' =>
                  sample_rounds destination interval rounds' log all_hops'
              end
          end
      end
  end.

(** Lines 153 and 160-174: [all_hops = []] and the loop over
    [range(num_traces)]. *)
Definition sample_traces (destination : str) (num_traces interval : Z)
  : list event * dyn (list Sample) :=
  sample_rounds destination interval (py_range num_traces) [] [].

End Sampler.

(** What the log of [n] completed rounds looks like: a trace, then a
    sleep and a trace for every further round. *)
Definition schedule (destination : str) (interval : Z) (rounds : list Z)
  : list event :=
  flat_map (fun i => (if 0 <? i then [Slept interval] else [])
                     ++ [Traced destination]) rounds.

Definition is_trace (e : event) : bool :=
  match e with Traced _ => true | Slept _ => false end.

(** Lines joined by a line terminator [sep], none after the last. *)
Fixpoint join_lines (sep : str) (lines : list str) : str :=
  match lines with
  | [] => []
  | [l] => l
  | l :: lines' => l ++ sep ++ join_lines sep lines'
  end.

(** [c] is a parenthesis. *)
Definition parenthesis (c : char) : Prop := c = 40%N \/ c = 41%N.

(** [a] is [t] without its enclosing parentheses: [t] is [a] with
    nothing but parentheses in front of it and behind it, and [a]
    neither begins nor ends with a parenthesis. *)
Definition stripped_of_parens (t a : str) : Prop :=
  (exists lead trail,
      t = lead ++ a ++ trail
      /\ Forall parenthesis lead /\ Forall parenthesis trail)
  /\ (forall c r, a = c :: r -> ~ parenthesis c)
  /\ (forall r c, a = r ++ [c] -> ~ parenthesis c).

(** The last token of [pre], or [prev] when [pre] is empty. *)
Definition last_before (prev : option str) (pre : list str) : option str :=
  fold_left (fun _ x => Some x) pre prev.

(** A token that does not have the IPv4 shape once its enclosing
    parentheses are stripped. *)
Definition not_ipv4_shaped (t : str) : Prop :=
  forall b, stripped_of_parens t b -> ipv4_shape b = false.

(** What the scan of a span [span] can record as [(address, hostname)]:
    nothing, when no token of the span has the IPv4 shape; or the
    stripped form of one token of the span, before which no token of the
    span has the IPv4 shape, together with the token immediately before
    it in the span, if there is one. *)
Definition found_in_span (span : list str)
  (address hostname_ : option str) : Prop :=
  (address = None /\ hostname_ = None /\ Forall not_ipv4_shaped span)
  \/ (exists pre t post a,
         span = pre ++ t :: post
         /\ stripped_of_parens t a
         /\ address = Some a
         /\ hostname_ = last_before None pre
         /\ Forall not_ipv4_shaped pre).

(** * Properties *)

(** ** Strings and lists *)

Lemma str_eqb_eq (a b : str) : str_eqb a b = true <-> a = b.
Proof.
  revert b; induction a as [|x a IH]; intros [|y b]; simpl;
    try (split; [discriminate | congruence]); try tauto.
  rewrite andb_true_iff, N.eqb_eq, IH.
  split; [intros [-> ->]; reflexivity | intros H; inversion H; auto].
Qed.

Lemma str_eqb_refl (a : str) : str_eqb a a = true.
Proof. apply str_eqb_eq; reflexivity. Qed.

Lemma str_eqb_neq (a b : str) : str_eqb a b = false <-> a <> b.
Proof.
  rewrite <- str_eqb_eq. destruct (str_eqb a b); split; congruence.
Qed.

Lemma len_app {A} (l1 l2 : list A) : len (l1 ++ l2) = len l1 + len l2.
Proof. unfold len. rewrite length_app. lia. Qed.

Lemma len_nonneg {A} (l : list A) : 0 <= len l.
Proof. unfold len. lia. Qed.

Lemma getitem_nth {A} (l : list A) (n : nat) (x : A) :
  nth_error l n = Some x -> getitem l (Z.of_nat n) = Ok x.
Proof.
  intros H. unfold getitem, len.
  assert (n < length l)%nat by (apply nth_error_Some; congruence).
  assert (E1 : (Z.of_nat n <? 0) = false) by (apply Z.ltb_ge; lia).
  assert (E2 : (Z.of_nat (length l) <=? Z.of_nat n) = false)
    by (apply Z.leb_gt; lia).
  cbv zeta. rewrite E1, E1, E2. simpl. rewrite Nat2Z.id, H. reflexivity.
Qed.

Lemma getitem_head {A} (x : A) (l : list A) : getitem (x :: l) 0 = Ok x.
Proof. apply (getitem_nth (x :: l) 0). reflexivity. Qed.

(** The element in front of position [len pre] of [pre ++ suf]. *)
Lemma getitem_last {A} (pre suf : list A) (p : A) :
  getitem ((pre ++ [p]) ++ suf) (len (pre ++ [p]) - 1) = Ok p.
Proof.
  replace (len (pre ++ [p]) - 1) with (Z.of_nat (length pre)).
  - apply getitem_nth. rewrite <- app_assoc. simpl.
    rewrite nth_error_app2 by lia. rewrite Nat.sub_diag. reflexivity.
  - unfold len. rewrite length_app. simpl. lia.
Qed.

Lemma slice_tail {A} (l : list A) : slice l (Some 1) None = tl l.
Proof.
  unfold slice, slice_bound. change (1 <? 0) with false. cbv iota.
  destruct l as [|x l]; [reflexivity|].
  assert (H : 1 <= len (x :: l)) by (unfold len; simpl length; lia).
  rewrite Z.min_l by exact H.
  change (Z.to_nat 1) with 1%nat. simpl skipn. simpl tl.
  replace (Z.to_nat (len (x :: l) - 1)) with (length l)
    by (unfold len; simpl length; lia).
  apply firstn_all.
Qed.

Lemma slice_prefix {A} (l : list A) (n : nat) :
  slice l None (Some (Z.of_nat n)) = firstn n l.
Proof.
  unfold slice, slice_bound.
  assert (E : (Z.of_nat n <? 0) = false) by (apply Z.ltb_ge; lia).
  rewrite E. change (Z.to_nat 0) with 0%nat. simpl skipn.
  rewrite Z.sub_0_r.
  destruct (Z.le_ge_cases (Z.of_nat n) (len l)) as [H|H].
  - rewrite Z.min_l by exact H. rewrite Nat2Z.id. reflexivity.
  - rewrite Z.min_r by lia. unfold len in *. rewrite Nat2Z.id.
    rewrite firstn_all. symmetry. apply firstn_all2. lia.
Qed.

(** [l[1:e]] for [1 < e <= len l]. *)
Lemma slice_between {A} (l : list A) (e : nat) :
  (1 < e <= length l)%nat ->
  slice l (Some 1) (Some (Z.of_nat e)) = strictly_between 0 e l.
Proof.
  intros [H1 H2]. unfold slice, slice_bound, strictly_between.
  change (1 <? 0) with false.
  assert (E : (Z.of_nat e <? 0) = false) by (apply Z.ltb_ge; lia).
  rewrite E. cbv iota.
  rewrite !Z.min_l by (unfold len; lia).
  change (Z.to_nat 1) with 1%nat. simpl (0 + 1)%nat.
  f_equal. lia.
Qed.

Lemma position_index (x : str) (l : list str) (i : Z) :
  index_from i l x =
  match position x l with
  | Some n => Ok (i + Z.of_nat n)
  | None => Raise ValueError
  end.
Proof.
  revert i; induction l as [|y l IH]; intros i; simpl; [reflexivity|].
  destruct (str_eqb y x); [f_equal; lia|].
  rewrite IH. destruct (position x l); [f_equal; lia | reflexivity].
Qed.

Lemma position_contains (x : str) (l : list str) :
  contains l x = match position x l with Some _ => true | None => false end.
Proof.
  unfold contains. induction l as [|y l IH]; simpl; [reflexivity|].
  replace (str_eqb x y) with (str_eqb y x).
  - destruct (str_eqb y x); [reflexivity|]. simpl. rewrite IH.
    destruct (position x l); reflexivity.
  - destruct (str_eqb y x) eqn:E.
    + apply str_eqb_eq in E. subst. symmetry. apply str_eqb_refl.
    + apply str_eqb_neq in E. symmetry. apply str_eqb_neq. congruence.
Qed.

Lemma position_bound (x : str) (l : list str) (n : nat) :
  position x l = Some n -> (n < length l)%nat.
Proof.
  revert n; induction l as [|y l IH]; intros n; simpl; [discriminate|].
  destruct (str_eqb y x); [intros [= <-]; lia|].
  destruct (position x l) as [m|]; [|discriminate].
  intros [= <-]. specialize (IH m eq_refl). lia.
Qed.

Lemma position_nth (x : str) (l : list str) (n : nat) :
  position x l = Some n -> nth_error l n = Some x.
Proof.
  revert n; induction l as [|y l IH]; intros n; simpl; [discriminate|].
  destruct (str_eqb y x) eqn:E.
  - intros [= <-]. apply str_eqb_eq in E. subst. reflexivity.
  - destruct (position x l) as [m|]; [|discriminate].
    intros [= <-]. simpl. auto.
Qed.

(** ** Whitespace *)

Lemma dropwhile_Exists (p : char -> bool) (s : str) :
  dropwhile p s <> [] -> Exists (fun c => p c = false) s.
Proof.
  induction s as [|c s IH]; simpl; [congruence|].
  destruct (p c) eqn:E; intros H.
  - right. auto.
  - left. exact E.
Qed.

Lemma dropwhile_all (p : char -> bool) (s : str) :
  Forall (fun c => p c = true) s -> dropwhile p s = [].
Proof.
  induction 1 as [|c s H _ IH]; simpl; [reflexivity|]. rewrite H. exact IH.
Qed.

Lemma dropwhile_app (p : char -> bool) (s r : str) :
  Exists (fun c => p c = false) s ->
  dropwhile p (s ++ r) = dropwhile p s ++ r.
Proof.
  induction 1 as [c s H | c s _ IH]; simpl.
  - rewrite H. reflexivity.
  - destruct (p c); [exact IH | reflexivity].
Qed.

Lemma dropwhile_Forall (p : char -> bool) (P : char -> Prop) (s : str) :
  Forall P s -> Forall P (dropwhile p s).
Proof.
  induction 1 as [|c s H Hs IH]; simpl; [constructor|].
  destruct (p c); [exact IH | constructor; assumption].
Qed.

Lemma dropwhile_skip (p : char -> bool) (ws x : str) :
  Forall (fun c => p c = true) ws -> dropwhile p (ws ++ x) = dropwhile p x.
Proof.
  induction 1 as [|c ws H _ IH]; simpl; [reflexivity|].
  rewrite H. exact IH.
Qed.

Lemma dropwhile_nonempty (p : char -> bool) (s : str) :
  Exists (fun c => p c = false) s -> dropwhile p s <> [].
Proof.
  induction 1 as [c s H | c s _ IH]; simpl.
  - rewrite H. discriminate.
  - destruct (p c); [exact IH | discriminate].
Qed.

Lemma strip_nonblank (s : str) :
  strip s <> [] -> Exists (fun c => is_space c = false) s.
Proof.
  unfold strip, strip_by, rstrip_by, lstrip_by. intros H.
  apply dropwhile_Exists. intros E. apply H. rewrite E. reflexivity.
Qed.

Lemma strip_blank (s : str) :
  Forall (fun c => is_space c = true) s -> strip s = [].
Proof.
  intros H. unfold strip, strip_by, rstrip_by, lstrip_by.
  rewrite (dropwhile_all _ H). reflexivity.
Qed.

Lemma split_from_cur (cur s : str) : cur <> [] -> split_from cur s <> [].
Proof.
  revert cur; induction s as [|c s IH]; intros cur H; simpl.
  - destruct cur; [congruence | discriminate].
  - destruct (is_space c).
    + destruct cur; [congruence | discriminate].
    + apply IH. destruct cur; discriminate.
Qed.

Lemma split_from_nonblank (cur s : str) :
  Exists (fun c => is_space c = false) s -> split_from cur s <> [].
Proof.
  intros H; revert cur; induction H as [c s H | c s _ IH]; intros cur; simpl.
  - rewrite H. apply split_from_cur. destruct cur; discriminate.
  - destruct (is_space c).
    + destruct (null cur); [apply IH | discriminate].
    + apply IH.
Qed.

(** A line that survives [if not line.strip()] has a first token. *)
Lemma split_nonblank (line : str) :
  null (strip line) = false -> exists t rest, split line = t :: rest.
Proof.
  intros H.
  assert (Hne : split line <> []).
  { apply split_from_nonblank, strip_nonblank.
    destruct (strip line); [discriminate | discriminate]. }
  destruct (split line) as [|t rest]; [congruence | eauto].
Qed.

(** ** Loops *)

Lemma seen_len (pre : list str) (p : str) :
  seen pre (Some p) -> (0 <? len pre) = true.
Proof.
  inversion 1; subst. apply Z.ltb_lt. rewrite len_app.
  pose proof (len_nonneg pre0). unfold len at 2. simpl. lia.
Qed.

Lemma seen_getitem (pre suf : list str) (p : str) :
  seen pre (Some p) -> getitem (pre ++ suf) (len pre - 1) = Ok p.
Proof. inversion 1; subst. apply getitem_last. Qed.

Lemma py_float_outcome (s : str) :
  (exists f, py_float s = Ok f) \/ py_float s = Raise ValueError.
Proof.
  unfold py_float.
  destruct (read_digits 0 0 s) as [[i ni] r].
  destruct r as [|c r'].
  - destruct ni; eauto.
  - destruct (c =? 46)%N; [|auto].
    destruct (read_digits i 0 r') as [[m nf] r''].
    destruct (null r'' && negb (Nat.eqb (ni + nf) 0)); eauto.
Qed.

Lemma timing_value_timing (val : str) : timing_value val = Ok (timing val).
Proof.
  unfold timing_value, timing.
  destruct (str_eqb val (py "*")); [reflexivity|].
  destruct (py_float_outcome (re_sub_non_numeric val)) as [[f ->] | ->];
    reflexivity.
Qed.

Lemma rtts_loop (suf : list str) :
  forall pre prev acc,
    seen pre prev ->
    for_in (enumerate_from (len pre) suf) (rtts_body (pre ++ suf)) acc
    = Ok (acc ++ timings_after prev suf).
Proof.
  induction suf as [|t suf IH]; intros pre prev acc Hseen; simpl.
  - rewrite app_nil_r. reflexivity.
  - assert (Hnext : forall acc',
               for_in (enumerate_from (len pre + 1) suf)
                 (rtts_body (pre ++ t :: suf)) acc'
               = Ok (acc' ++ timings_after (Some t) suf)).
    { intros acc'. specialize (IH (pre ++ [t]) (Some t) acc' (seen_token _ _)).
      rewrite len_app, <- app_assoc in IH. exact IH. }
    destruct prev as [p|].
    + rewrite (seen_len Hseen), andb_true_r.
      destruct (str_eqb t (py "ms")).
      * rewrite (seen_getitem (t :: suf) Hseen). simpl.
        rewrite timing_value_timing. simpl.
        rewrite Hnext, <- app_assoc. reflexivity.
      * rewrite Hnext. reflexivity.
    + inversion Hseen; subst.
      change (len []) with 0. rewrite andb_false_r.
      rewrite Hnext. reflexivity.
Qed.

(** The [while] loop of lines 99-100 leaves by its condition within the
    fuel it is given. *)
Lemma pad_loop (fuel : nat) :
  forall rtts : list (option float),
    (3 - length rtts <= fuel)%nat ->
    while_ fuel (fun rtts => len rtts <? 3)
      (fun rtts => Ok (rtts ++ [None])) rtts
    = Ok (rtts ++ repeat None (3 - length rtts)).
Proof.
  induction fuel as [|fuel IH]; intros rtts Hfuel.
  - assert (E : (len rtts <? 3) = false)
      by (apply Z.ltb_ge; unfold len; lia).
    replace (3 - length rtts)%nat with 0%nat by lia.
    cbn [while_ repeat]. rewrite E, app_nil_r. reflexivity.
  - cbn [while_]. destruct (len rtts <? 3) eqn:E.
    + apply Z.ltb_lt in E. unfold len in E.
      cbn [bind].
      rewrite IH by (rewrite length_app; simpl length; lia).
      rewrite length_app. simpl length.
      replace (3 - length rtts)%nat
        with (S (3 - (length rtts + 1)))%nat by lia.
      cbn [repeat]. rewrite <- app_assoc. reflexivity.
    + apply Z.ltb_ge in E. unfold len in E.
      replace (3 - length rtts)%nat with 0%nat by lia.
      cbn [repeat]. rewrite app_nil_r. reflexivity.
Qed.

Lemma firstn_pad {A} (x : A) (l : list A) :
  firstn 3 (l ++ repeat x (3 - length l)) = firstn 3 (l ++ [x; x; x]).
Proof.
  destruct l as [|a [|b [|c l]]]; reflexivity.
Qed.

Lemma firstn_pad_length {A} (x : A) (l : list A) :
  length (firstn 3 (l ++ [x; x; x])) = 3%nat.
Proof.
  rewrite length_firstn, length_app. simpl length. lia.
Qed.

Lemma collect_rtts_timings (tokens : list str) :
  collect_rtts tokens = Ok (firstn 3 (timings tokens ++ [None; None; None])).
Proof.
  unfold collect_rtts, enumerate, timings.
  pose proof (rtts_loop tokens [] (@seen_nothing)) as H.
  change (len []) with 0 in H. simpl app in H.
  rewrite H. cbn [bind].
  rewrite pad_loop by lia. cbn [bind].
  rewrite (slice_prefix _ 3), firstn_pad. reflexivity.
Qed.

Lemma strictly_between_all {A} (l : list A) :
  strictly_between 0 (length l) l = tl l.
Proof.
  unfold strictly_between. destruct l as [|x l]; [reflexivity|].
  simpl. rewrite Nat.sub_0_r. apply firstn_all.
Qed.

(** Lines 103-104 compute the span of the specification. *)
Lemma id_tokens_span (tokens : list str) :
  id_tokens_of tokens = Ok (identity_span tokens).
Proof.
  unfold id_tokens_of, identity_span, index.
  rewrite position_contains, position_index.
  destruct (position (py "ms") tokens) as [i|] eqn:Hpos.
  - apply position_bound in Hpos. cbn [bind]. f_equal.
    destruct (Nat.ltb 2 i) eqn:E.
    + apply Nat.ltb_lt in E.
      assert (E' : (1 <? 0 + Z.of_nat i - 1) = true) by (apply Z.ltb_lt; lia).
      rewrite E'.
      replace (0 + Z.of_nat i - 1) with (Z.of_nat (i - 1)) by lia.
      apply slice_between. lia.
    + apply Nat.ltb_ge in E.
      assert (E' : (1 <? 0 + Z.of_nat i - 1) = false) by (apply Z.ltb_ge; lia).
      rewrite E'. apply slice_tail.
  - cbn [bind]. f_equal.
    destruct (1 <? len tokens) eqn:E.
    + apply Z.ltb_lt in E. unfold len in *.
      rewrite slice_between by lia. apply strictly_between_all.
    + apply slice_tail.
Qed.

(** The loop of lines 108-116 is the scan of the specification with the
    test [re.match] makes. *)
Lemma identity_loop (suf : list str) :
  forall pre prev,
    seen pre prev ->
    for_in (enumerate_from (len pre) suf) (identity_body (pre ++ suf))
      (None, None)
    = Ok (scan_after (re_match ipv4_pattern) prev suf).
Proof.
  induction suf as [|t suf IH]; intros pre prev Hseen; simpl;
    [reflexivity|].
  destruct (re_match ipv4_pattern (strip_parens t)).
  - destruct prev as [p|].
    + rewrite (seen_len Hseen).
      rewrite (seen_getitem (t :: suf) Hseen). simpl.
      destruct (re_match ipv4_pattern (strip_parens p)); reflexivity.
    + inversion Hseen; subst. reflexivity.
  - specialize (IH (pre ++ [t]) (Some t) (seen_token _ _)).
    rewrite len_app, <- app_assoc in IH. exact IH.
Qed.

Lemma scan_after_shapes (shape : str -> bool) (span : list str) :
  forall prev a h,
    scan_after shape prev span = (Some a, Some h) ->
    shape a = true /\ shape (strip_parens h) = false.
Proof.
  induction span as [|t span IH]; intros prev a h; simpl; [discriminate|].
  destruct (shape (strip_parens t)) eqn:E; [|apply IH].
  destruct prev as [p|]; [|discriminate].
  destruct (shape (strip_parens p)) eqn:E'; [discriminate|].
  intros [= <- <-]. auto.
Qed.

Lemma scan_after_absent (shape : str -> bool) (span : list str) :
  forall prev h, scan_after shape prev span = (None, h) -> h = None.
Proof.
  induction span as [|t span IH]; intros prev h; simpl.
  - intros [= <-]. reflexivity.
  - destruct (shape (strip_parens t)); [discriminate | apply IH].
Qed.

(** Lines 118-125 never change what the scan found. *)
Lemma reconcile_suppress_scan (tokens span : list str) :
  suppress_self_reference
    (reconcile_timeout tokens (scan (re_match ipv4_pattern) span))
  = scan (re_match ipv4_pattern) span.
Proof.
  unfold scan.
  destruct (scan_after (re_match ipv4_pattern) None span)
    as [[a|] h] eqn:E.
  - simpl. destruct h as [h|]; [|reflexivity].
    apply scan_after_shapes in E. destruct E as [Ha Hh].
    destruct (str_eqb (strip_parens h) a) eqn:Eq; [|reflexivity].
    apply str_eqb_eq in Eq. congruence.
  - apply scan_after_absent in E. subst h. simpl.
    destruct (contains tokens (py "*")); reflexivity.
Qed.

Lemma identity_of_scan (tokens : list str) :
  identity_of tokens
  = Ok (scan (re_match ipv4_pattern) (identity_span tokens)).
Proof.
  unfold identity_of. rewrite id_tokens_span. cbn [bind].
  unfold enumerate.
  pose proof (identity_loop (identity_span tokens) (@seen_nothing)) as H.
  change (len []) with 0 in H. simpl app in H.
  fold (scan (re_match ipv4_pattern) (identity_span tokens)) in H.
  rewrite H. cbn [bind]. rewrite reconcile_suppress_scan. reflexivity.
Qed.

(** ** Lines *)

Lemma dropwhile_nil (p : char -> bool) (s : str) :
  dropwhile p s = [] -> Forall (fun c => p c = true) s.
Proof.
  induction s as [|c s IH]; simpl; [constructor|].
  destruct (p c) eqn:E; [|discriminate].
  intros H. constructor; auto.
Qed.

Lemma strip_nil (s : str) :
  strip s = [] -> Forall (fun c => is_space c = true) s.
Proof.
  unfold strip, strip_by, rstrip_by, lstrip_by. intros H.
  apply dropwhile_nil.
  assert (H' : dropwhile is_space (rev (dropwhile is_space s)) = [])
    by (apply (f_equal (@rev char)) in H; rewrite rev_involutive in H;
        exact H).
  apply dropwhile_nil in H'.
  destruct (dropwhile is_space s) as [|c r] eqn:E; [reflexivity|].
  assert (Hc : is_space c = true).
  { apply Forall_rev in H'. rewrite rev_involutive in H'.
    inversion H'; assumption. }
  assert (Hne : Exists (fun c => is_space c = false) s)
    by (apply dropwhile_Exists; rewrite E; discriminate).
  clear H H'. induction s as [|d s IH]; simpl in E; [discriminate|].
  destruct (is_space d) eqn:Ed.
  - apply IH; [exact E|]. inversion Hne; subst; [congruence | assumption].
  - inversion E; subst. congruence.
Qed.

Lemma split_blank (s : str) :
  Forall (fun c => is_space c = true) s -> split s = [].
Proof.
  unfold split. induction 1 as [|c s H _ IH]; simpl; [reflexivity|].
  rewrite H. exact IH.
Qed.

Section Lines.

Variable m : N.

Lemma py_int_outcome (s : str) :
  (exists n, py_int m s = Ok n) \/ py_int m s = Raise ValueError.
Proof.
  unfold py_int.
  destruct (match strip s with
            | [] => (false, strip s)
            | c :: s' =>
                if (c =? 43)%N then (false, s')
                else if (c =? 45)%N then (true, s') else (false, strip s)
            end) as [neg body].
  destruct (int_literal body) as [[n cnt]|]; [|auto].
  destruct ((0 <? m)%N && (m <? cnt)%N); eauto.
Qed.

(** An iteration of the loop over the lines appends the record of the
    line, or nothing when the line is not a hop line; it never raises. *)
Lemma hop_of_line_record (line : str) :
  hop_of_line m line = Ok (line_record m line).
Proof.
  unfold hop_of_line, line_record, line_hop, first_token.
  destruct (null (strip line)) eqn:Hblank.
  - assert (Hs : strip line = [])
      by (destruct (strip line); [reflexivity | discriminate]).
    rewrite (split_blank (strip_nil line Hs)). reflexivity.
  - destruct (split_nonblank line Hblank) as (t & rest & Hsplit).
    assert (Hget : getitem (split line) 0 = Ok t)
      by (rewrite Hsplit; apply getitem_head).
    assert (Hfirst : match split line with
                     | t :: _ => Some t
                     | [] => None
                     end = Some t) by (rewrite Hsplit; reflexivity).
    rewrite Hfirst. unfold hop_number. rewrite Hget. cbn [bind].
    destruct (py_int_outcome t) as [[n Hn] | Hn]; rewrite Hn;
      cbn [bind try_except_ValueError]; [|reflexivity].
    rewrite collect_rtts_timings, identity_of_scan. reflexivity.
Qed.

Lemma lines_loop (lines : list str) :
  forall acc,
    for_in lines (lines_body m) acc = Ok (acc ++ records_of m lines).
Proof.
  induction lines as [|line lines IH]; intros acc; simpl.
  - rewrite app_nil_r. reflexivity.
  - unfold lines_body at 1. rewrite hop_of_line_record. cbn [bind].
    destruct (line_record m line) as [h|]; rewrite IH.
    + rewrite <- app_assoc. reflexivity.
    + reflexivity.
Qed.

(** [parse_traceroute] returns the records of the lines after the
    header, in line order. *)
Lemma parse_traceroute_records (s : str) :
  parse_traceroute m s = Ok (records_of m (body_lines s)).
Proof.
  unfold parse_traceroute, body_lines.
  destruct (splitlines (strip s)) as [|header lines] eqn:E.
  - reflexivity.
  - cbn [null]. rewrite slice_tail, lines_loop. reflexivity.
Qed.

Lemma records_of_In (lines : list str) (h : Hop) :
  In h (records_of m lines) ->
  exists line, In line lines /\ line_record m line = Some h.
Proof.
  unfold records_of. rewrite in_flat_map. intros (line & Hin & Hh).
  exists line. split; [exact Hin|].
  destruct (line_record m line) as [h'|]; [|contradiction].
  destruct Hh as [<- | []]. reflexivity.
Qed.

Lemma records_of_hops (lines : list str) :
  map hop (records_of m lines) = hop_numbers m lines.
Proof.
  unfold records_of, hop_numbers.
  induction lines as [|line lines IH]; simpl; [reflexivity|].
  rewrite map_app, IH. f_equal.
  unfold line_record. destruct (line_hop m line); reflexivity.
Qed.

End Lines.

(** ** Where the scan finds its tokens *)

Lemma dropwhile_idem (p : char -> bool) (s : str) :
  dropwhile p (dropwhile p s) = dropwhile p s.
Proof.
  induction s as [|c s IH]; simpl; [reflexivity|].
  destruct (p c) eqn:E; [exact IH|]. simpl. rewrite E. reflexivity.
Qed.

Lemma dropwhile_suffix (p : char -> bool) (s : str) :
  exists pre, s = pre ++ dropwhile p s.
Proof.
  induction s as [|c s [pre IH]]; simpl; [exists []; reflexivity|].
  destruct (p c).
  - exists (c :: pre). simpl. f_equal. exact IH.
  - exists []. reflexivity.
Qed.

Lemma dropwhile_head (p : char -> bool) (s : str) (c : char) (r : str) :
  dropwhile p s = c :: r -> p c = false.
Proof.
  induction s as [|d s IH]; simpl; [discriminate|].
  destruct (p d) eqn:E; [exact IH|]. intros [= <- <-]. exact E.
Qed.

(** [strip] leaves nothing more to strip. *)
Lemma strip_by_idem (p : char -> bool) (s : str) :
  strip_by p (strip_by p s) = strip_by p s.
Proof.
  unfold strip_by, lstrip_by, rstrip_by.
  set (d := dropwhile p s).
  set (y := rev (dropwhile p (rev d))).
  assert (Hy : dropwhile p y = y).
  { destruct (dropwhile_suffix p (rev d)) as [pre Hpre].
    assert (Hd : d = y ++ rev pre).
    { unfold y. rewrite <- rev_app_distr, <- Hpre, rev_involutive.
      reflexivity. }
    destruct y as [|c y']; [reflexivity|].
    assert (Hc : p c = false)
      by (apply (@dropwhile_head p s c (y' ++ rev pre)); fold d;
          rewrite Hd; reflexivity).
    simpl. rewrite Hc. reflexivity. }
  rewrite Hy. unfold y. rewrite rev_involutive, dropwhile_idem.
  reflexivity.
Qed.

Lemma scan_after_address (shape : str -> bool) (span : list str) :
  forall prev a hn,
    scan_after shape prev span = (Some a, hn) ->
    exists t, In t span /\ a = strip_parens t /\ shape a = true.
Proof.
  induction span as [|t span IH]; intros prev a hn; simpl; [discriminate|].
  destruct (shape (strip_parens t)) eqn:E.
  - intros [= <- _]. exists t. auto.
  - intros H. destruct (IH _ _ _ H) as (t' & Hin & Ha).
    exists t'. auto.
Qed.

Lemma scan_after_hostname (shape : str -> bool) (span : list str) :
  forall prev a name,
    scan_after shape prev span = (Some a, Some name) ->
    exists t,
      a = strip_parens t
      /\ adjacent name t
           (match prev with Some p => [p] | None => [] end ++ span).
Proof.
  induction span as [|t span IH]; intros prev a name; simpl;
    [discriminate|].
  destruct (shape (strip_parens t)) eqn:E.
  - destruct prev as [p|]; [|discriminate].
    destruct (shape (strip_parens p)); [discriminate|].
    intros [= <- <-]. exists t. split; [reflexivity|].
    exists [], span. reflexivity.
  - intros H. destruct (IH _ _ _ H) as (t' & Ha & pre & post & Hadj).
    exists t'. split; [exact Ha|].
    exists (match prev with Some p => [p] | None => [] end ++ pre), post.
    rewrite <- app_assoc. f_equal. exact Hadj.
Qed.

(** The span is a run of consecutive tokens of the line. *)
Lemma identity_span_infix (tokens : list str) :
  exists pre post, tokens = pre ++ identity_span tokens ++ post.
Proof.
  assert (Htl : exists pre post, tokens = pre ++ tl tokens ++ post).
  { destruct tokens as [|t tokens].
    - exists [], []. reflexivity.
    - exists [t], []. simpl. rewrite app_nil_r. reflexivity. }
  unfold identity_span.
  destruct (position (py "ms") tokens) as [i|]; [|exact Htl].
  destruct (Nat.ltb 2 i); [|exact Htl].
  unfold strictly_between.
  exists (firstn (0 + 1) tokens),
         (skipn (i - 1 - 0 - 1) (skipn (0 + 1) tokens)).
  rewrite firstn_skipn, firstn_skipn. reflexivity.
Qed.

(** ** Stripping parentheses *)

Lemma dropwhile_split (p : char -> bool) (s : str) :
  exists pre, s = pre ++ dropwhile p s /\ Forall (fun c => p c = true) pre.
Proof.
  induction s as [|c s (pre & IH & Hpre)]; simpl.
  - exists []. split; [reflexivity | constructor].
  - destruct (p c) eqn:E.
    + exists (c :: pre). split; [simpl; f_equal; exact IH|].
      constructor; assumption.
    + exists []. split; [reflexivity | constructor].
Qed.

Lemma is_paren_parenthesis (c : char) :
  is_paren c = true <-> parenthesis c.
Proof.
  unfold is_paren, parenthesis.
  rewrite orb_true_iff, !N.eqb_eq. tauto.
Qed.

Lemma Forall_is_paren (l : str) :
  Forall (fun c => is_paren c = true) l -> Forall parenthesis l.
Proof.
  apply Forall_impl. intros c. apply is_paren_parenthesis.
Qed.

(** [strip("()")] gives the token without its enclosing parentheses. *)
Lemma strip_parens_stripped (t : str) :
  stripped_of_parens t (strip_parens t).
Proof.
  unfold strip_parens, strip_by, lstrip_by, rstrip_by.
  destruct (dropwhile_split is_paren t) as (lead & Ht & Hlead).
  set (d := dropwhile is_paren t) in *.
  destruct (dropwhile_split is_paren (rev d)) as (pre & Hd & Hpre).
  set (y := rev (dropwhile is_paren (rev d))).
  assert (Hy : d = y ++ rev pre).
  { unfold y. rewrite <- rev_app_distr, <- Hd, rev_involutive.
    reflexivity. }
  split; [|split].
  - exists lead, (rev pre). rewrite <- Hy. split; [exact Ht|].
    split; apply Forall_is_paren; [exact Hlead | apply Forall_rev, Hpre].
  - intros c r Hc Hp. apply is_paren_parenthesis in Hp.
    assert (Hfalse : is_paren c = false).
    { apply (@dropwhile_head is_paren t c (r ++ rev pre)).
      fold d. rewrite Hy, Hc. reflexivity. }
    congruence.
  - intros r c Hc Hp. apply is_paren_parenthesis in Hp.
    assert (Hfalse : is_paren c = false).
    { apply (@dropwhile_head is_paren (rev d) c (rev r)).
      apply (f_equal (@rev char)) in Hc. unfold y in Hc.
      rewrite rev_involutive, rev_app_distr in Hc. exact Hc. }
    congruence.
Qed.

(** A token has one form without its enclosing parentheses, the one
    [strip("()")] gives. *)
Lemma stripped_of_parens_strip (t a : str) :
  stripped_of_parens t a -> a = strip_parens t.
Proof.
  intros ((lead & trail & -> & Hlead & Htrail) & Hfirst & Hlast).
  assert (Hl : Forall (fun c => is_paren c = true) lead)
    by (revert Hlead; apply Forall_impl; intros c;
        apply is_paren_parenthesis).
  assert (Ht : Forall (fun c => is_paren c = true) trail)
    by (revert Htrail; apply Forall_impl; intros c;
        apply is_paren_parenthesis).
  unfold strip_parens, strip_by, lstrip_by, rstrip_by.
  rewrite dropwhile_skip by exact Hl.
  destruct a as [|c r].
  - simpl. rewrite (dropwhile_all _ Ht). reflexivity.
  - assert (Hc : is_paren c = false).
    { destruct (is_paren c) eqn:E; [|reflexivity].
      apply is_paren_parenthesis in E.
      exfalso. exact (Hfirst c r eq_refl E). }
    simpl app. simpl dropwhile. rewrite Hc.
    change (c :: r ++ trail) with ((c :: r) ++ trail).
    rewrite rev_app_distr, dropwhile_skip by (apply Forall_rev; exact Ht).
    destruct (exists_last (l := c :: r)) as (r' & c' & Hr');
      [discriminate|].
    rewrite Hr', rev_app_distr. simpl.
    assert (Hc' : is_paren c' = false).
    { destruct (is_paren c') eqn:E; [|reflexivity].
      apply is_paren_parenthesis in E.
      exfalso. exact (Hlast r' c' Hr' E). }
    rewrite Hc'. simpl. rewrite rev_involutive. reflexivity.
Qed.

(** * The claims *)

(** C1: for every input string [parse_traceroute] returns a sequence of
    hop records and never raises: the lines after the header whose first
    token does not convert to an integer are skipped, and every line
    whose first token converts yields exactly one record, carrying that
    hop number, whatever else the line contains. *)
Theorem parse_traceroute_never_raises (m : N) (s : str) :
  exists recs,
    parse_traceroute m s = Ok recs
    /\ Forall2 (fun line h => line_hop m line = Some (hop h))
         (filter (is_hop_line m) (body_lines s)) recs.
Proof.
  exists (records_of m (body_lines s)).
  split; [apply parse_traceroute_records|].
  induction (body_lines s) as [|line lines IH]; simpl; [constructor|].
  unfold is_hop_line, line_record.
  destruct (line_hop m line) as [n|] eqn:E.
  - simpl. constructor; [simpl; exact E | exact IH].
  - exact IH.
Qed.

(** C3: every record returned has exactly three round-trip times: the
    timing values of its line (one per ["ms"] with a token before it,
    absent for ["*"] and for a token that does not parse), padded with
    absent values and cut to three. *)
Theorem rtt_always_three (m : N) (s : str) :
  exists recs,
    parse_traceroute m s = Ok recs
    /\ Forall (fun h =>
         length (rtt h) = 3%nat
         /\ exists line,
              In line (body_lines s)
              /\ rtt h = firstn 3 (timings (split line)
                                   ++ [None; None; None])) recs.
Proof.
  exists (records_of m (body_lines s)).
  split; [apply parse_traceroute_records|].
  apply Forall_forall. intros h Hin.
  apply records_of_In in Hin. destruct Hin as (line & Hin & Hrec).
  unfold line_record in Hrec.
  destruct (line_hop m line) as [n|]; [|discriminate].
  injection Hrec as <-. simpl. split.
  - apply firstn_pad_length.
  - exists line. split; [exact Hin | reflexivity].
Qed.

(** C4: in every record returned, an absent address comes with an absent
    hostname. *)
Theorem hostname_needs_address (m : N) (s : str) :
  exists recs,
    parse_traceroute m s = Ok recs
    /\ Forall (fun h => ip h = None -> hostname h = None) recs.
Proof.
  exists (records_of m (body_lines s)).
  split; [apply parse_traceroute_records|].
  apply Forall_forall. intros h Hin.
  apply records_of_In in Hin. destruct Hin as (line & _ & Hrec).
  unfold line_record in Hrec.
  destruct (line_hop m line) as [n|]; [|discriminate].
  injection Hrec as <-. simpl.
  destruct (scan (re_match ipv4_pattern) (identity_span (split line)))
    as [a h] eqn:E.
  simpl. intros ->. exact (scan_after_absent _ _ _ E).
Qed.

(** C5, as stated, fails: hop lines numbered 2 and then 1 come back in
    that order. *)
Lemma hops_not_sorted :
  exists recs,
    parse_traceroute 4300 (text [py "traceroute to host"; py " 2  * * *";
                                 py " 1  * * *"]) = Ok recs
    /\ map hop recs = [2; 1]
    /\ nondecreasing (map hop recs) = false.
Proof.
  eexists. split; [vm_compute; reflexivity|].
  split; reflexivity.
Qed.

(** C5, amended: the records come in the order of the hop lines of the
    input, each with the hop number of its line, so the hop numbers
    returned are non-decreasing exactly when those of the input's hop
    lines are. *)
Theorem hops_in_line_order (m : N) (s : str) :
  exists recs,
    parse_traceroute m s = Ok recs
    /\ map hop recs = hop_numbers m (body_lines s)
    /\ nondecreasing (map hop recs)
       = nondecreasing (hop_numbers m (body_lines s)).
Proof.
  exists (records_of m (body_lines s)).
  split; [apply parse_traceroute_records|].
  rewrite records_of_hops. split; reflexivity.
Qed.

(** C8: an empty or whitespace-only text parses to the empty sequence,
    and no text at all makes the parser raise. *)
Theorem blank_text_parses_empty (m : N) :
  (forall s, Forall (fun c => is_space c = true) s ->
             parse_traceroute m s = Ok [])
  /\ (forall s e, parse_traceroute m s <> Raise e).
Proof.
  split.
  - intros s Hs. unfold parse_traceroute.
    rewrite (strip_blank Hs). reflexivity.
  - intros s e. rewrite parse_traceroute_records. discriminate.
Qed.

Lemma blank_text_parses_empty_witness :
  Forall (fun c => is_space c = true) (py "  " ++ [LF; 9%N; CR])
  /\ parse_traceroute 4300 (py "  " ++ [LF; 9%N; CR]) = Ok []
  /\ parse_traceroute 4300 (py "") = Ok [].
Proof.
  assert (H : Forall (fun c => is_space c = true) (py "  " ++ [LF; 9%N; CR]))
    by (repeat constructor).
  split; [exact H|]. split.
  - exact (proj1 (blank_text_parses_empty 4300) _ H).
  - exact (proj1 (blank_text_parses_empty 4300) (py "") (Forall_nil _)).
Defined.

(** C6: lines 123-125 drop a hostname whose stripped form is the address,
    and in every record returned a hostname, stripped of its enclosing
    parentheses, differs from the address. *)
Theorem self_reference_suppressed (m : N) (s : str) :
  (forall a name,
      strip_parens name = a ->
      suppress_self_reference (Some a, Some name) = (Some a, None))
  /\ exists recs,
       parse_traceroute m s = Ok recs
       /\ Forall (fun h => forall name a,
                    hostname h = Some name -> ip h = Some a ->
                    strip_parens name <> a) recs.
Proof.
  split.
  - intros a name <-. simpl. rewrite str_eqb_refl. reflexivity.
  - exists (records_of m (body_lines s)).
    split; [apply parse_traceroute_records|].
    apply Forall_forall. intros h Hin.
    apply records_of_In in Hin. destruct Hin as (line & _ & Hrec).
    unfold line_record in Hrec.
    destruct (line_hop m line) as [n|]; [|discriminate].
    injection Hrec as <-. simpl.
    destruct (scan (re_match ipv4_pattern) (identity_span (split line)))
      as [a' h'] eqn:E.
    simpl. intros name a -> -> Heq.
    destruct (scan_after_shapes _ _ _ E) as [Ha Hname].
    congruence.
Qed.

Lemma self_reference_suppressed_witness :
  suppress_self_reference
    (Some (py "10.0.0.1"), Some (py "(10.0.0.1)"))
  = (Some (py "10.0.0.1"), None)
  /\ exists recs,
       parse_traceroute 4300
         (text [py "traceroute to host";
                py " 1  gw.lan (10.0.0.1)  0.334 ms"]) = Ok recs
       /\ Forall (fun h => forall name a,
                    hostname h = Some name -> ip h = Some a ->
                    strip_parens name <> a) recs.
Proof.
  split.
  - apply (proj1 (self_reference_suppressed 4300 [])). reflexivity.
  - apply (proj2 (self_reference_suppressed 4300 _)).
Defined.

(** C10: a recorded hostname is, character for character, the token that
    stands immediately before the address token on its line, its
    parentheses included; the recorded address is the address token
    without its enclosing parentheses: only parentheses were removed, in
    front and behind, and none is left at either end. *)
Theorem hostname_stored_verbatim (m : N) (s : str) :
  exists recs,
    parse_traceroute m s = Ok recs
    /\ Forall (fun h =>
         exists line,
           In line (body_lines s)
           /\ (forall name,
                  hostname h = Some name ->
                  exists t a, adjacent name t (split line)
                              /\ stripped_of_parens t a
                              /\ ip h = Some a)
           /\ (forall a,
                  ip h = Some a ->
                  exists t, In t (split line)
                            /\ stripped_of_parens t a)) recs.
Proof.
  exists (records_of m (body_lines s)).
  split; [apply parse_traceroute_records|].
  apply Forall_forall. intros h Hin.
  apply records_of_In in Hin. destruct Hin as (line & Hin & Hrec).
  exists line. split; [exact Hin|].
  unfold line_record in Hrec.
  destruct (line_hop m line) as [n|]; [|discriminate].
  injection Hrec as <-. simpl.
  destruct (identity_span_infix (split line)) as (pre & post & Htok).
  destruct (scan (re_match ipv4_pattern) (identity_span (split line)))
    as [a' h'] eqn:E.
  simpl. split.
  - intros name ->. destruct a' as [a'|];
      [|apply scan_after_absent in E; discriminate].
    destruct (scan_after_hostname _ _ _ E) as (t & -> & p1 & p2 & Hadj).
    exists t, (strip_parens t).
    split; [|split; [apply strip_parens_stripped | reflexivity]].
    simpl in Hadj. exists (pre ++ p1), (p2 ++ post).
    rewrite Htok at 1. rewrite Hadj, <- !app_assoc. reflexivity.
  - intros a ->.
    destruct (scan_after_address _ _ _ E) as (t & Ht & -> & _).
    exists t. split; [|apply strip_parens_stripped].
    rewrite Htok. apply in_or_app. right. apply in_or_app. left.
    exact Ht.
Qed.

Lemma hostname_stored_verbatim_witness :
  let input :=
    text [py "traceroute to host"; py " 6  (gw) (10.0.0.1)  1.0 ms"] in
  let h := {| hop := 6;
              ip := Some (py "10.0.0.1");
              hostname := Some (py "(gw)");
              rtt := [Some (S754_finite false 4503599627370496 (-52));
                      None; None] |} in
  parse_traceroute 4300 input = Ok [h]
  /\ exists line,
       In line (body_lines input)
       /\ (exists t a, adjacent (py "(gw)") t (split line)
                       /\ stripped_of_parens t a
                       /\ ip h = Some a)
       /\ (exists t, In t (split line)
                     /\ stripped_of_parens t (py "10.0.0.1")).
Proof.
  intros input h.
  assert (Hparse : parse_traceroute 4300 input = Ok [h])
    by (vm_compute; reflexivity).
  split; [exact Hparse|].
  destruct (hostname_stored_verbatim 4300 input) as (recs & Hrecs & Hall).
  rewrite Hparse in Hrecs. injection Hrecs as <-.
  inversion Hall as [|h0 l0 (line & Hin & Hname & Hip) _]; subst.
  exists line. split; [exact Hin|]. split.
  - exact (Hname (py "(gw)") eq_refl).
  - exact (Hip (py "10.0.0.1") eq_refl).
Defined.

(** A hostname printed in parentheses keeps them; the address loses
    them. *)
Example parenthesised_hostname_kept :
  parse_traceroute 4300
    (text [py "traceroute to host"; py " 6  (gw) (10.0.0.1)  1.0 ms"])
  = Ok [ {| hop := 6;
            ip := Some (py "10.0.0.1");
            hostname := Some (py "(gw)");
            rtt := [Some (S754_finite false 4503599627370496 (-52));
                    None; None] |} ].
Proof. vm_compute. reflexivity. Qed.

(** ** The IPv4 shape and the pattern *)

Lemma split_on_join (s : str) :
  forall cur, join_dots (split_on 46%N cur s) = cur ++ s.
Proof.
  induction s as [|c s IH]; intros cur; simpl.
  - rewrite app_nil_r. reflexivity.
  - destruct (c =? 46)%N eqn:E.
    + apply N.eqb_eq in E. subst c.
      specialize (IH []). simpl in IH.
      destruct (split_on 46%N [] s) as [|g gs] eqn:Es.
      * destruct s; simpl in Es; [discriminate|].
        destruct (c =? 46)%N; discriminate.
      * change (join_dots (cur :: g :: gs))
          with (cur ++ 46%N :: join_dots (g :: gs)).
        rewrite IH. reflexivity.
    + rewrite IH, <- app_assoc. reflexivity.
Qed.

(** One to three digits match [\d{1,3}], whatever follows. *)
Lemma digit_group_match (g rest : str) (k : str -> bool) :
  digit_group g = true ->
  k rest = true ->
  re_run (RRepeat 1 3 RDigit) (g ++ rest) k = true.
Proof.
  unfold digit_group. rewrite !andb_true_iff.
  intros [[Hlo Hhi] Hdigits] Hk.
  destruct g as [|a [|b [|c [|d g]]]]; simpl in Hlo, Hhi;
    try discriminate; simpl in Hdigits;
    repeat match goal with
           | H : _ && _ = true |- _ => apply andb_true_iff in H; destruct H
           end; simpl.
  - rewrite H. simpl. destruct rest as [|x rest]; simpl.
    + rewrite Hk. reflexivity.
    + rewrite Hk, !orb_true_r. reflexivity.
  - rewrite H, H0. simpl. destruct rest as [|x rest]; simpl.
    + rewrite Hk. reflexivity.
    + rewrite Hk, !orb_true_r. reflexivity.
  - rewrite H, H0, H1. simpl. rewrite Hk. reflexivity.
Qed.

Lemma re_run_cat (r1 r2 : regex) (s : str) (k : str -> bool) :
  re_run (RCat r1 r2) s k = re_run r1 s (fun s' => re_run r2 s' k).
Proof. reflexivity. Qed.

Lemma re_run_char (c : char) (s : str) (k : str -> bool) :
  re_run (RChar c) (c :: s) k = k s.
Proof. simpl. rewrite N.eqb_refl. reflexivity. Qed.

Lemma re_run_repeat_succ (lo hi : nat) (r : regex) (s : str)
  (k : str -> bool) :
  re_run (RRepeat (S lo) (S hi) r) s k
  = re_run r s (fun s' => re_run (RRepeat lo hi r) s' k) || false.
Proof. reflexivity. Qed.

Lemma re_run_repeat_zero (r : regex) (s : str) (k : str -> bool) :
  re_run (RRepeat 0 0 r) s k = k s.
Proof. reflexivity. Qed.

(** A dot and a group match [\.\d{1,3}]. *)
Lemma dot_group_match (g rest : str) (k : str -> bool) :
  digit_group g = true ->
  k rest = true ->
  re_run (RCat (RChar 46%N) (RRepeat 1 3 RDigit)) (46%N :: g ++ rest) k
  = true.
Proof.
  intros Hg Hk. rewrite re_run_cat, re_run_char.
  apply digit_group_match; assumption.
Qed.

(** A string of the exact shape matches the pattern. *)
Lemma ipv4_shape_match (s : str) :
  ipv4_shape s = true -> re_match ipv4_pattern s = true.
Proof.
  unfold ipv4_shape. rewrite andb_true_iff. intros [Hlen Hgroups].
  pose proof (split_on_join s []) as Hjoin. simpl in Hjoin.
  destruct (split_on 46%N [] s) as [|g1 [|g2 [|g3 [|g4 [|g5 gs]]]]];
    try discriminate.
  simpl in Hgroups.
  repeat match goal with
         | H : _ && _ = true |- _ => apply andb_true_iff in H; destruct H
         end.
  rewrite <- Hjoin. simpl join_dots.
  unfold re_match, ipv4_pattern. rewrite re_run_cat.
  apply digit_group_match; [assumption|].
  rewrite re_run_repeat_succ, orb_false_r.
  apply dot_group_match; [assumption|].
  rewrite re_run_repeat_succ, orb_false_r.
  apply dot_group_match; [assumption|].
  rewrite re_run_repeat_succ, orb_false_r.
  rewrite <- (app_nil_r g4).
  apply dot_group_match; [assumption|].
  reflexivity.
Qed.

Lemma scan_after_ext (f g : str -> bool) (span : list str) :
  forall prev,
    (forall t,
        In t (match prev with Some p => [p] | None => [] end ++ span) ->
        f (strip_parens t) = g (strip_parens t)) ->
    scan_after f prev span = scan_after g prev span.
Proof.
  induction span as [|t span IH]; intros prev H; simpl; [reflexivity|].
  rewrite <- (H t) by (apply in_or_app; right; left; reflexivity).
  destruct (f (strip_parens t)).
  - destruct prev as [p|]; [|reflexivity].
    rewrite <- (H p) by (left; reflexivity). reflexivity.
  - apply IH. intros t' [<- | Hin].
    + apply H. apply in_or_app. right. left. reflexivity.
    + apply H. apply in_or_app. right. right. exact Hin.
Qed.

Lemma not_matched_not_shaped (t : str) :
  re_match ipv4_pattern (strip_parens t) = false -> not_ipv4_shaped t.
Proof.
  intros H b Hb. apply stripped_of_parens_strip in Hb. subst b.
  destruct (ipv4_shape (strip_parens t)) eqn:E; [|reflexivity].
  apply ipv4_shape_match in E. congruence.
Qed.

(** The scan stops at the first token that passes the test. *)
Lemma scan_after_first (f : str -> bool) (span : list str) :
  forall prev,
    (forall p, prev = Some p -> f (strip_parens p) = false) ->
    (scan_after f prev span = (None, None)
     /\ Forall (fun t => f (strip_parens t) = false) span)
    \/ (exists pre t post,
           span = pre ++ t :: post
           /\ Forall (fun x => f (strip_parens x) = false) pre
           /\ f (strip_parens t) = true
           /\ scan_after f prev span
              = (Some (strip_parens t), last_before prev pre)).
Proof.
  induction span as [|t span IH]; intros prev Hprev; simpl.
  - left. split; [reflexivity | constructor].
  - destruct (f (strip_parens t)) eqn:E.
    + right. exists [], t, span. split; [reflexivity|].
      split; [constructor|]. split; [exact E|].
      destruct prev as [p|]; [|reflexivity].
      rewrite (Hprev p eq_refl). reflexivity.
    + destruct (IH (Some t)) as [[Hscan Hall] | (pre & t' & post & Hspan
                                              & Hpre & Ht' & Hscan)].
      * intros p [= <-]. exact E.
      * left. split; [exact Hscan | constructor; assumption].
      * right. exists (t :: pre), t', post. subst span.
        split; [reflexivity|]. split; [constructor; assumption|].
        split; [exact Ht' | exact Hscan].
Qed.

(** C2, as stated, fails: the address of this line stands after the
    first ["ms"], outside the stated span, in which no token has the IPv4
    shape; the token in front of it, ["ms"], becomes the hostname. *)
Lemma address_outside_stated_span :
  exists h,
    hop_of_line 4300 (py " 5  1.5 ms  10.0.0.1") = Ok (Some h)
    /\ ip h = Some (py "10.0.0.1")
    /\ hostname h = Some (py "ms")
    /\ stated_span (split (py " 5  1.5 ms  10.0.0.1")) = [py "1.5"]
    /\ scan ipv4_shape (stated_span (split (py " 5  1.5 ms  10.0.0.1")))
       = (None, None).
Proof.
  eexists. split; [vm_compute; reflexivity|].
  repeat split; vm_compute; reflexivity.
Qed.

(** The pattern is tested at the start of the token only: a token that
    merely begins with an IPv4 shape is taken as the address, whole. *)
Example address_not_of_exact_shape :
  exists h,
    hop_of_line 4300 (py " 7  1.2.3.4.5  1.0 ms") = Ok (Some h)
    /\ ip h = Some (py "1.2.3.4.5")
    /\ ipv4_shape (py "1.2.3.4.5") = false.
Proof.
  eexists. split; [vm_compute; reflexivity|].
  split; vm_compute; reflexivity.
Qed.

(** What a hop line records is found in its identity span. *)
Lemma line_found_in_span (m : N) (line : str) (h : Hop) :
  hop_of_line m line = Ok (Some h) ->
  found_in_span (identity_span (split line)) (ip h) (hostname h).
Proof.
  intros Hline.
  rewrite hop_of_line_record in Hline. injection Hline as Hrec.
  unfold line_record in Hrec.
  destruct (line_hop m line) as [n|]; [|discriminate].
  injection Hrec as <-. simpl.
  unfold found_in_span, scan.
  destruct (@scan_after_first (re_match ipv4_pattern)
              (identity_span (split line)) None)
    as [[Hscan Hall] | (pre & t & post & Hspan & Hpre & Ht & Hscan)].
  - intros p Hp. discriminate.
  - left. rewrite Hscan. simpl. split; [reflexivity|].
    split; [reflexivity|].
    revert Hall. apply Forall_impl. exact not_matched_not_shaped.
  - right. exists pre, t, post, (strip_parens t). rewrite Hscan. simpl.
    split; [exact Hspan|]. split; [apply strip_parens_stripped|].
    split; [reflexivity|]. split; [reflexivity|].
    revert Hpre. apply Forall_impl. exact not_matched_not_shaped.
Qed.

(** C2, amended: the address and the hostname of every hop line come
    from the scan of its identity span alone (the tokens strictly between
    the hop number and the timing token in front of the first ["ms"], or
    every token after the hop number when there is no ["ms"] or the first
    one is the second or third token): a recorded address is one token of
    the span without its enclosing parentheses, no token of the span
    before that one has the IPv4 shape, and the hostname is the token
    immediately before it in the span, absent when there is none; when no
    address is recorded, no token of the span has the IPv4 shape and no
    hostname is recorded.  On a line whose span tokens that begin with an
    IPv4 shape are exactly of that shape, the address is the first token
    of the shape, and the scan stops there. *)
Theorem identity_from_span_scan (m : N) (line : str) (h : Hop) :
  hop_of_line m line = Ok (Some h) ->
  found_in_span (identity_span (split line)) (ip h) (hostname h)
  /\ ((forall t,
         In t (identity_span (split line)) ->
         re_match ipv4_pattern (strip_parens t) = true ->
         ipv4_shape (strip_parens t) = true) ->
      (ip h, hostname h) = scan ipv4_shape (identity_span (split line))).
Proof.
  intros Hline. split; [exact (line_found_in_span m line Hline)|].
  rewrite hop_of_line_record in Hline. injection Hline as Hrec.
  unfold line_record in Hrec.
  destruct (line_hop m line) as [n|]; [|discriminate].
  injection Hrec as <-. simpl.
  intros Hexact. rewrite <- surjective_pairing.
  unfold scan. apply scan_after_ext. simpl. intros t Hin.
  destruct (re_match ipv4_pattern (strip_parens t)) eqn:E.
  - symmetry. apply Hexact; assumption.
  - destruct (ipv4_shape (strip_parens t)) eqn:E'; [|reflexivity].
    apply ipv4_shape_match in E'. congruence.
Qed.

Lemma identity_from_span_scan_witness :
  let line := py " 5  1.5 ms  10.0.0.1" in
  let h := {| hop := 5; ip := Some (py "10.0.0.1");
              hostname := Some (py "ms");
              rtt := [Some (S754_finite false 6755399441055744 (-52));
                      None; None] |} in
  hop_of_line 4300 line = Ok (Some h)
  /\ identity_span (split line) = [py "1.5"; py "ms"; py "10.0.0.1"]
  /\ found_in_span (identity_span (split line)) (ip h) (hostname h)
  /\ (ip h, hostname h) = scan ipv4_shape (identity_span (split line)).
Proof.
  intros line h.
  assert (Hline : hop_of_line 4300 line = Ok (Some h))
    by (vm_compute; reflexivity).
  assert (Hspan : identity_span (split line)
                  = [py "1.5"; py "ms"; py "10.0.0.1"])
    by (vm_compute; reflexivity).
  split; [exact Hline|]. split; [exact Hspan|].
  destruct (identity_from_span_scan 4300 line Hline) as [Hfound Hexact].
  split; [exact Hfound|].
  apply Hexact.
  rewrite Hspan. intros t [<- | [<- | [<- | []]]] Hmatch;
    vm_compute in Hmatch; try discriminate; vm_compute; reflexivity.
Defined.

(** A hop line outside the exactness condition: the address is still a
    stripped token of the span, with the token before it as hostname. *)
Example span_scan_on_inexact_line :
  let line := py " 7  gw 1.2.3.4.5 9.9.9.9  1.0 ms" in
  exists h,
    hop_of_line 4300 line = Ok (Some h)
    /\ identity_span (split line)
       = [py "gw"; py "1.2.3.4.5"; py "9.9.9.9"]
    /\ ip h = Some (py "1.2.3.4.5")
    /\ hostname h = Some (py "gw")
    /\ found_in_span (identity_span (split line)) (ip h) (hostname h).
Proof.
  intros line. eexists.
  assert (Hline : hop_of_line 4300 line
                  = Ok (Some {| hop := 7; ip := Some (py "1.2.3.4.5");
                                hostname := Some (py "gw");
                                rtt := [Some (binary64_of_ratio 10 10);
                                        None; None] |}))
    by (vm_compute; reflexivity).
  split; [exact Hline|].
  split; [vm_compute; reflexivity|].
  split; [reflexivity|]. split; [reflexivity|].
  exact (line_found_in_span 4300 line Hline).
Qed.

(** ** A header line and one hop line *)

Lemma rstrip_by_last (p : char -> bool) (s : str) (c : char) :
  p c = false -> rstrip_by p (s ++ [c]) = s ++ [c].
Proof.
  intros H. unfold rstrip_by. rewrite rev_app_distr. simpl.
  rewrite H. simpl. rewrite rev_involutive. reflexivity.
Qed.

Lemma splitlines_from_line (h : str) :
  Forall (fun c => is_linebreak c = false) h ->
  forall cur rest,
    splitlines_from cur (h ++ LF :: rest)
    = (cur ++ h) :: splitlines_from [] rest.
Proof.
  induction 1 as [|c h Hc _ IH]; intros cur rest.
  - simpl. rewrite app_nil_r. destruct rest; reflexivity.
  - simpl. rewrite Hc, IH, <- app_assoc. reflexivity.
Qed.

(** The text of a non-blank header line followed by a line that ends in
    [c], not a space, has the lines after its header that the second
    line has on its own. *)
Lemma body_lines_after_header (header line : str) (c : char) :
  Forall (fun c => is_linebreak c = false) header ->
  Exists (fun c => is_space c = false) header ->
  is_space c = false ->
  body_lines (header ++ LF :: line ++ [c]) = splitlines (line ++ [c]).
Proof.
  intros Hlb Hne Hc. unfold body_lines, strip, strip_by, lstrip_by.
  rewrite (dropwhile_app _ (LF :: line ++ [c]) Hne).
  replace (dropwhile is_space header ++ LF :: line ++ [c])
    with ((dropwhile is_space header ++ LF :: line) ++ [c])
    by (rewrite <- app_assoc; reflexivity).
  rewrite rstrip_by_last by exact Hc. rewrite <- app_assoc.
  unfold splitlines. simpl app.
  rewrite splitlines_from_line by (apply dropwhile_Forall; exact Hlb).
  reflexivity.
Qed.

Lemma py_int_one (m : N) : py_int m (py "1") = Ok 1.
Proof.
  destruct m as [|[p|p|]]; reflexivity.
Qed.

(** The three expected values are the binary64 values of the literals
    0.334, 0.311 and 0.302. *)
Lemma scenario_A_floats :
  map Some [binary64_of_ratio 334 1000; binary64_of_ratio 311 1000;
            binary64_of_ratio 302 1000]
  = rtt scenario_A_record.
Proof. vm_compute. reflexivity. Qed.

Lemma scenario_A_line_record (m : N) :
  line_record m scenario_A_line = Some scenario_A_record.
Proof.
  unfold line_record, line_hop.
  change (first_token scenario_A_line) with (Some (py "1")).
  cbv beta iota. rewrite py_int_one. vm_compute. reflexivity.
Qed.

(** C7: a header line followed by the line of Scenario A parses to
    exactly one record: hop 1, address 10.0.0.1, hostname rtr.local and
    the round-trip times 0.334, 0.311 and 0.302. *)
Theorem scenario_A (m : N) (header : str) :
  Forall (fun c => is_linebreak c = false) header ->
  Exists (fun c => is_space c = false) header ->
  parse_traceroute m (header ++ LF :: scenario_A_line)
  = Ok [scenario_A_record].
Proof.
  intros Hlb Hne. rewrite parse_traceroute_records.
  change scenario_A_line
    with (py "1  rtr.local (10.0.0.1)  0.334 ms  0.311 ms  0.302 m"
          ++ [115%N]).
  rewrite body_lines_after_header by (assumption || reflexivity).
  change (splitlines _) with [scenario_A_line].
  unfold records_of. simpl flat_map.
  rewrite scenario_A_line_record. reflexivity.
Qed.

Lemma scenario_A_witness :
  let header :=
    py "traceroute to example.com (93.184.216.34), 30 hops max" in
  Forall (fun c => is_linebreak c = false) header
  /\ Exists (fun c => is_space c = false) header
  /\ parse_traceroute 4300 (header ++ LF :: scenario_A_line)
     = Ok [scenario_A_record].
Proof.
  intros header.
  assert (Hlb : Forall (fun c => is_linebreak c = false) header)
    by (repeat constructor).
  assert (Hne : Exists (fun c => is_space c = false) header)
    by (left; reflexivity).
  split; [exact Hlb|]. split; [exact Hne|].
  exact (scenario_A 4300 Hlb Hne).
Defined.

(** ** The raw trace source *)

Lemma fs_convert_all_outcome (argv : list str) :
  fs_convert_all argv = Ok tt
  \/ fs_convert_all argv = Raise ValueError
  \/ fs_convert_all argv = Raise UnicodeEncodeError.
Proof.
  induction argv as [|arg argv IH]; simpl; [auto|].
  unfold fs_convert.
  destruct (negb (forallb fs_encodable arg)); [auto|].
  destruct (existsb (N.eqb 0) arg); [auto|]. exact IH.
Qed.

(** C9 does not hold of [execute_traceroute]: a destination with an
    embedded NUL makes [subprocess.run] raise [ValueError] under every
    operating system, a missing [traceroute] program raises
    [FileNotFoundError], and neither is caught, because the handler is
    for [CalledProcessError], which a call without [check=True] never
    raises; a run that exits with an error status returns whatever was
    captured, and no run at all returns a [str]. *)
Theorem execute_traceroute_propagates :
  (forall os,
      execute_traceroute os (py "bad" ++ [0%N] ++ py "host")
      = Raise ValueError)
  /\ execute_traceroute (fun _ => SpawnFails ENOENT) (py "example.com")
     = Raise FileNotFoundError
  /\ execute_traceroute (fun _ => Exits 2 [] (py "unknown host"))
       (py "no.such.host")
     = Ok (PyBytes [])
  /\ (forall os destination,
         returns_str (execute_traceroute os destination) = false).
Proof.
  split; [intros os; reflexivity|].
  split; [reflexivity|].
  split; [reflexivity|].
  intros os destination. unfold execute_traceroute, subprocess_run.
  destruct (fs_convert_all_outcome [py "traceroute"; py "-I"; destination])
    as [H | [H | H]]; rewrite H; try reflexivity.
  destruct (os [py "traceroute"; py "-I"; destination]) as [[|]|rc out err];
    reflexivity.
Qed.

(** * Further properties of the parser *)

(** ** Which tokens pass the address test *)

Lemma digit_group_inv (s : str) (k : str -> bool) :
  re_run (RRepeat 1 3 RDigit) s k = true ->
  exists g rest, s = g ++ rest /\ digit_group g = true /\ k rest = true.
Proof.
  intros H. rewrite re_run_repeat_succ, orb_false_r in H.
  destruct s as [|a s]; [discriminate|].
  cbn [re_run] in H. apply andb_true_iff in H. destruct H as [Ha H].
  assert (H1 : re_run (RRepeat 0 2 RDigit) s k = true) by exact H.
  clear H.
  assert (Hone : k s = true ->
                 exists g rest, a :: s = g ++ rest
                                /\ digit_group g = true /\ k rest = true).
  { intros Hk. exists [a], s. unfold digit_group. simpl. rewrite Ha. auto. }
  destruct s as [|b s]; [apply Hone; exact H1|].
  change (re_run (RRepeat 0 2 RDigit) (b :: s) k)
    with (is_decimal b && re_run (RRepeat 0 1 RDigit) s k || k (b :: s))
    in H1.
  apply orb_true_iff in H1. destruct H1 as [H1 | H1]; [|apply Hone; exact H1].
  apply andb_true_iff in H1. destruct H1 as [Hb H2].
  assert (Htwo : k s = true ->
                 exists g rest, a :: b :: s = g ++ rest
                                /\ digit_group g = true /\ k rest = true).
  { intros Hk. exists [a; b], s. unfold digit_group. simpl.
    rewrite Ha, Hb. auto. }
  destruct s as [|c s]; [apply Htwo; exact H2|].
  change (re_run (RRepeat 0 1 RDigit) (c :: s) k)
    with (is_decimal c && k s || k (c :: s)) in H2.
  apply orb_true_iff in H2. destruct H2 as [H2 | H2]; [|apply Htwo; exact H2].
  apply andb_true_iff in H2. destruct H2 as [Hc H3].
  exists [a; b; c], s. unfold digit_group. simpl. rewrite Ha, Hb, Hc. auto.
Qed.

Lemma dot_group_inv (s : str) (k : str -> bool) :
  re_run (RCat (RChar 46%N) (RRepeat 1 3 RDigit)) s k = true ->
  exists g rest,
    s = 46%N :: g ++ rest /\ digit_group g = true /\ k rest = true.
Proof.
  rewrite re_run_cat. destruct s as [|d s]; [discriminate|].
  cbn [re_run]. intros H. apply andb_true_iff in H. destruct H as [Hd H].
  apply N.eqb_eq in Hd. subst d.
  destruct (digit_group_inv _ _ H) as (g & rest & -> & Hg & Hk).
  exists g, rest. auto.
Qed.

Lemma digit_group_no_dot (g : str) :
  digit_group g = true -> Forall (fun c => (c =? 46)%N = false) g.
Proof.
  unfold digit_group. rewrite !andb_true_iff. intros [_ H].
  rewrite forallb_forall in H. apply Forall_forall. intros c Hc.
  specialize (H c Hc). destruct (c =? 46)%N eqn:E; [|reflexivity].
  apply N.eqb_eq in E. subst c. discriminate.
Qed.

Lemma split_on_group (g : str) :
  Forall (fun c => (c =? 46)%N = false) g ->
  forall cur,
    (forall r, split_on 46%N cur (g ++ 46%N :: r)
               = (cur ++ g) :: split_on 46%N [] r)
    /\ split_on 46%N cur g = [cur ++ g].
Proof.
  induction 1 as [|c g Hc _ IH]; intros cur.
  - rewrite app_nil_r. split; [intros r|]; reflexivity.
  - destruct (IH (cur ++ [c])) as [IH1 IH2].
    split.
    + intros r. simpl. rewrite Hc. specialize (IH1 r).
      rewrite <- app_assoc in IH1. exact IH1.
    + simpl. rewrite Hc. rewrite <- app_assoc in IH2. exact IH2.
Qed.

(** Four digit groups joined by dots have the IPv4 shape. *)
Lemma four_groups_shape (g1 g2 g3 g4 : str) :
  digit_group g1 = true -> digit_group g2 = true ->
  digit_group g3 = true -> digit_group g4 = true ->
  ipv4_shape (g1 ++ 46%N :: g2 ++ 46%N :: g3 ++ 46%N :: g4) = true.
Proof.
  intros H1 H2 H3 H4. unfold ipv4_shape.
  rewrite (proj1 (split_on_group (digit_group_no_dot _ H1) [])).
  rewrite (proj1 (split_on_group (digit_group_no_dot _ H2) [])).
  rewrite (proj1 (split_on_group (digit_group_no_dot _ H3) [])).
  rewrite (proj2 (split_on_group (digit_group_no_dot _ H4) [])).
  simpl. rewrite H1, H2, H3, H4. reflexivity.
Qed.

Lemma ipv4_prefix_match (a rest : str) :
  ipv4_shape a = true -> re_match ipv4_pattern (a ++ rest) = true.
Proof.
  unfold ipv4_shape. rewrite andb_true_iff. intros [Hlen Hgroups].
  pose proof (split_on_join a []) as Hjoin. simpl in Hjoin.
  destruct (split_on 46%N [] a) as [|g1 [|g2 [|g3 [|g4 [|g5 gs]]]]];
    try discriminate.
  simpl in Hgroups.
  repeat match goal with
         | H : _ && _ = true |- _ => apply andb_true_iff in H; destruct H
         end.
  rewrite <- Hjoin. simpl join_dots.
  repeat (rewrite <- app_assoc; rewrite <- app_comm_cons).
  unfold re_match, ipv4_pattern. rewrite re_run_cat.
  apply digit_group_match; [assumption|].
  rewrite re_run_repeat_succ, orb_false_r.
  apply dot_group_match; [assumption|].
  rewrite re_run_repeat_succ, orb_false_r.
  apply dot_group_match; [assumption|].
  rewrite re_run_repeat_succ, orb_false_r.
  apply dot_group_match; [assumption|].
  reflexivity.
Qed.

Lemma ipv4_match_prefix (s : str) :
  re_match ipv4_pattern s = true ->
  exists a rest, s = a ++ rest /\ ipv4_shape a = true.
Proof.
  unfold re_match, ipv4_pattern. rewrite re_run_cat. intros H.
  destruct (digit_group_inv _ _ H) as (g1 & r1 & -> & Hg1 & H1).
  rewrite re_run_repeat_succ, orb_false_r in H1.
  destruct (dot_group_inv _ _ H1) as (g2 & r2 & -> & Hg2 & H2).
  rewrite re_run_repeat_succ, orb_false_r in H2.
  destruct (dot_group_inv _ _ H2) as (g3 & r3 & -> & Hg3 & H3).
  rewrite re_run_repeat_succ, orb_false_r in H3.
  destruct (dot_group_inv _ _ H3) as (g4 & r4 & -> & Hg4 & _).
  exists (g1 ++ 46%N :: g2 ++ 46%N :: g3 ++ 46%N :: g4), r4.
  split; [|apply four_groups_shape; assumption].
  repeat (rewrite <- app_assoc; rewrite <- app_comm_cons).
  reflexivity.
Qed.

(** X1: [re.match] with the pattern of lines 110 and 114 accepts exactly
    the strings that begin with an IPv4 shape: four dot-separated groups
    of one to three decimal digits, followed by anything. *)
Theorem address_test_accepts_prefixes (s : str) :
  re_match ipv4_pattern s = true
  <-> exists a rest, s = a ++ rest /\ ipv4_shape a = true.
Proof.
  split.
  - apply ipv4_match_prefix.
  - intros (a & rest & -> & Ha). apply ipv4_prefix_match. exact Ha.
Qed.

(** ** What the fields of a record can hold *)

(** The record of a line, with the scan that produced its address and
    hostname. *)
Lemma records_of_scan (m : N) (lines : list str) (h : Hop) :
  In h (records_of m lines) ->
  exists line,
    In line lines
    /\ scan (re_match ipv4_pattern) (identity_span (split line))
       = (ip h, hostname h)
    /\ rtt h = firstn 3 (timings (split line) ++ [None; None; None]).
Proof.
  intros Hin. apply records_of_In in Hin.
  destruct Hin as (line & Hin & Hrec). exists line.
  unfold line_record in Hrec.
  destruct (line_hop m line) as [n|]; [|discriminate].
  injection Hrec as <-. simpl.
  rewrite <- surjective_pairing. auto.
Qed.

(** X2: every address returned begins with an IPv4 shape, and no
    hostname returned does once its enclosing parentheses are stripped. *)
Theorem address_begins_with_shape (m : N) (s : str) :
  exists recs,
    parse_traceroute m s = Ok recs
    /\ Forall (fun h =>
         (forall a, ip h = Some a ->
                    exists p r, a = p ++ r /\ ipv4_shape p = true)
         /\ (forall name p r,
                hostname h = Some name ->
                strip_parens name = p ++ r ->
                ipv4_shape p = false)) recs.
Proof.
  exists (records_of m (body_lines s)).
  split; [apply parse_traceroute_records|].
  apply Forall_forall. intros h Hin.
  destruct (records_of_scan _ _ _ Hin) as (line & _ & Hscan & _).
  unfold scan in Hscan. split.
  - intros a Ha. rewrite Ha in Hscan.
    destruct (scan_after_address _ _ _ Hscan) as (t & _ & _ & Hmatch).
    apply ipv4_match_prefix. exact Hmatch.
  - intros name p r Hname Hstrip. rewrite Hname in Hscan.
    destruct (ip h) as [a|];
      [|apply scan_after_absent in Hscan; discriminate].
    destruct (scan_after_shapes _ _ _ Hscan) as [_ Hno].
    destruct (ipv4_shape p) eqn:E; [|reflexivity].
    rewrite Hstrip, (ipv4_prefix_match p r E) in Hno. discriminate.
Qed.

Lemma split_from_tokens (s : str) :
  forall cur,
    whitespace_free cur ->
    Forall (fun t => t <> [] /\ whitespace_free t) (split_from cur s).
Proof.
  unfold whitespace_free.
  induction s as [|c s IH]; intros cur Hcur; simpl.
  - destruct cur as [|x cur]; simpl; constructor;
      [split; [discriminate | exact Hcur] | constructor].
  - destruct (is_space c) eqn:E.
    + destruct cur as [|x cur]; simpl.
      * apply IH. constructor.
      * constructor; [split; [discriminate | exact Hcur]|].
        apply IH. constructor.
    + apply IH. apply Forall_app. split; [exact Hcur|].
      constructor; [exact E | constructor].
Qed.

Lemma strip_by_Forall (p : char -> bool) (P : char -> Prop) (s : str) :
  Forall P s -> Forall P (strip_by p s).
Proof.
  intros H. unfold strip_by, rstrip_by, lstrip_by.
  apply Forall_rev, dropwhile_Forall, Forall_rev, dropwhile_Forall.
  exact H.
Qed.

Lemma span_token (tokens : list str) (t : str) :
  In t (identity_span tokens) -> In t tokens.
Proof.
  intros H. destruct (identity_span_infix tokens) as (pre & post & Htok).
  rewrite Htok. apply in_or_app. right. apply in_or_app. left. exact H.
Qed.

(** X4: an address or a hostname in a record is never empty and holds no
    whitespace. *)
Theorem fields_hold_no_whitespace (m : N) (s : str) :
  exists recs,
    parse_traceroute m s = Ok recs
    /\ Forall (fun h =>
         (forall a, ip h = Some a -> a <> [] /\ whitespace_free a)
         /\ (forall name, hostname h = Some name ->
                          name <> [] /\ whitespace_free name)) recs.
Proof.
  exists (records_of m (body_lines s)).
  split; [apply parse_traceroute_records|].
  apply Forall_forall. intros h Hin.
  destruct (records_of_scan _ _ _ Hin) as (line & _ & Hscan & _).
  unfold scan in Hscan.
  pose proof (split_from_tokens line (Forall_nil _)) as Htokens.
  fold (split line) in Htokens. rewrite Forall_forall in Htokens.
  split.
  - intros a Ha. rewrite Ha in Hscan.
    destruct (scan_after_address _ _ _ Hscan) as (t & Ht & -> & Hmatch).
    split.
    + intros E. rewrite E in Hmatch. discriminate.
    + apply strip_by_Forall.
      apply (Htokens t (span_token _ _ Ht)).
  - intros name Hname. rewrite Hname in Hscan.
    destruct (ip h) as [a|];
      [|apply scan_after_absent in Hscan; discriminate].
    destruct (scan_after_hostname _ _ _ Hscan)
      as (t & _ & pre & post & Hadj).
    simpl in Hadj. apply Htokens. apply span_token.
    rewrite Hadj. apply in_or_app. right. left. reflexivity.
Qed.

(** ** The sign of a timing value *)

Lemma shr_1_nonneg (mrs : shr_record) :
  0 <= shr_m mrs -> 0 <= shr_m (shr_1 mrs).
Proof.
  destruct mrs as [mm r s]. destruct mm as [|p|p]; simpl; intros H;
    try (destruct p; simpl; lia); lia.
Qed.

Lemma iter_shr_1_nonneg (p : positive) :
  forall mrs, 0 <= shr_m mrs -> 0 <= shr_m (iter_pos shr_1 p mrs).
Proof.
  induction p as [p IH | p IH |]; simpl; intros mrs H.
  - apply IH, IH, shr_1_nonneg, H.
  - apply IH, IH, H.
  - apply shr_1_nonneg, H.
Qed.

Lemma shr_fexp_nonneg (prec emax mm e : Z) (l : location) :
  0 <= mm -> 0 <= shr_m (fst (shr_fexp prec emax mm e l)).
Proof.
  intros H. unfold shr_fexp, shr.
  assert (H0 : 0 <= shr_m (shr_record_of_loc mm l))
    by (destruct l as [|[]]; exact H).
  destruct (fexp prec emax (Zdigits2 mm + e) - e) as [|p|p]; simpl;
    [exact H0 | apply iter_shr_1_nonneg; exact H0 | exact H0].
Qed.

Lemma round_nearest_even_nonneg (mm : Z) (l : location) :
  0 <= mm -> 0 <= round_nearest_even mm l.
Proof.
  intros H. unfold round_nearest_even.
  destruct l as [|[]]; try destruct (Z.even mm); lia.
Qed.

(** Rounding a non-negative mantissa with a clear sign bit gives neither
    a negative number nor NaN. *)
Lemma binary_round_aux_nonnegative (prec emax mx ex : Z) (lx : location) :
  0 <= mx ->
  nonnegative_float (binary_round_aux prec emax false mx ex lx) = true.
Proof.
  intros H. unfold binary_round_aux.
  pose proof (shr_fexp_nonneg prec emax ex lx H) as H1.
  destruct (shr_fexp prec emax mx ex lx) as [mrs' e'].
  simpl fst in H1.
  pose proof (shr_fexp_nonneg prec emax e' loc_Exact
                (round_nearest_even_nonneg (loc_of_shr_record mrs') H1))
    as H2.
  destruct (shr_fexp prec emax
              (round_nearest_even (shr_m mrs') (loc_of_shr_record mrs'))
              e' loc_Exact) as [mrs'' e''].
  simpl fst in H2.
  destruct (shr_m mrs'') as [|p|p]; [reflexivity | | lia].
  destruct (e'' <=? emax - prec); reflexivity.
Qed.

Lemma binary64_of_ratio_nonnegative (n : N) (d : positive) :
  nonnegative_float (binary64_of_ratio n d) = true.
Proof.
  unfold binary64_of_ratio. destruct n as [|p]; [reflexivity|].
  unfold SFdiv_core_binary.
  set (e' := Z.min _ _). set (sh := 0 - 0 - e').
  set (m' := match sh with
             | 0 => Z.pos p
             | Z.pos _ => Z.shiftl (Z.pos p) sh
             | Z.neg _ => 0
             end).
  assert (Hm' : 0 <= m').
  { unfold m'. destruct sh; [lia | apply Z.shiftl_nonneg; lia | lia]. }
  destruct (Z.div_eucl m' (Z.pos d)) as [q r] eqn:E.
  apply binary_round_aux_nonnegative.
  assert (Hq : q = m' / Z.pos d) by (unfold Z.div; rewrite E; reflexivity).
  rewrite Hq. apply Z.div_pos; lia.
Qed.

Lemma py_float_nonnegative (s : str) (f : float) :
  py_float s = Ok f -> nonnegative_float f = true.
Proof.
  unfold py_float.
  destruct (read_digits 0 0 s) as [[i ni] r].
  destruct r as [|c r'].
  - destruct ni; [discriminate|]. intros [= <-].
    apply binary64_of_ratio_nonnegative.
  - destruct (c =? 46)%N; [|discriminate].
    destruct (read_digits i 0 r') as [[mm nf] r''].
    destruct (null r'' && negb (Nat.eqb (ni + nf) 0)); [|discriminate].
    intros [= <-]. apply binary64_of_ratio_nonnegative.
Qed.

Lemma timings_after_nonnegative (rest : list str) :
  forall prev,
    Forall (fun v => forall f, v = Some f -> nonnegative_float f = true)
      (timings_after prev rest).
Proof.
  induction rest as [|t rest IH]; intros prev; simpl; [constructor|].
  apply Forall_app. split; [|apply IH].
  destruct prev as [p|]; [|constructor].
  destruct (str_eqb t (py "ms")); [|constructor].
  constructor; [|constructor].
  intros f. unfold timing.
  destruct (str_eqb p (py "*")); [discriminate|].
  destruct (py_float (re_sub_non_numeric p)) as [f'|e] eqn:E;
    [|discriminate].
  intros [= <-]. exact (py_float_nonnegative _ E).
Qed.

Lemma firstn_Forall {A} (P : A -> Prop) (n : nat) (l : list A) :
  Forall P l -> Forall P (firstn n l).
Proof.
  intros H; revert n; induction H as [|x l Hx _ IH]; intros [|n]; simpl;
    constructor; auto.
Qed.

Lemma re_sub_drops (pre post : str) (c : char) :
  is_ascii_digit c = false ->
  c <> 46%N ->
  re_sub_non_numeric (pre ++ c :: post) = re_sub_non_numeric (pre ++ post).
Proof.
  intros Hd Hdot. unfold re_sub_non_numeric.
  rewrite !filter_app. simpl. rewrite Hd.
  replace (c =? 46)%N with false
    by (symmetry; apply N.eqb_neq; exact Hdot).
  reflexivity.
Qed.

(** The test for ["*"] changes nothing: the marker is cleaned to the
    empty string, which [float] rejects. *)
Lemma timing_of_cleaned (val : str) :
  timing val = match py_float (re_sub_non_numeric val) with
               | Ok f => Some f
               | Raise _ => None
               end.
Proof.
  unfold timing. destruct (str_eqb val (py "*")) eqn:E; [|reflexivity].
  apply str_eqb_eq in E. subst val. reflexivity.
Qed.

(** X3: the value of a timing token depends on its ASCII digits and dots
    alone: any other character, such as a minus sign, an exponent letter
    or a unit suffix, can be inserted anywhere without changing what
    lines 91-98 read from the token.  So a round-trip time in a record is
    never negative and never NaN. *)
Theorem timings_never_negative (m : N) (s : str) :
  (forall pre post c,
      is_ascii_digit c = false ->
      c <> 46%N ->
      timing_value (pre ++ c :: post) = timing_value (pre ++ post))
  /\ exists recs,
       parse_traceroute m s = Ok recs
       /\ Forall (fun h =>
            Forall (fun v => forall f, v = Some f ->
                                       nonnegative_float f = true) (rtt h))
            recs.
Proof.
  split.
  - intros pre post c Hd Hdot.
    rewrite !timing_value_timing, !timing_of_cleaned.
    rewrite re_sub_drops by assumption. reflexivity.
  - exists (records_of m (body_lines s)).
    split; [apply parse_traceroute_records|].
    apply Forall_forall. intros h Hin.
    destruct (records_of_scan _ _ _ Hin) as (line & _ & _ & ->).
    apply firstn_Forall, Forall_app. split.
    + apply timings_after_nonnegative.
    + repeat constructor; discriminate.
Qed.

Lemma timings_never_negative_witness :
  is_ascii_digit 45%N = false
  /\ timing_value (py "-1.5") = timing_value (py "1.5")
  /\ timing_value (py "1.5") = Ok (Some (binary64_of_ratio 15 10))
  /\ exists recs,
       parse_traceroute 4300
         (text [py "traceroute to host"; py " 1  gw (10.0.0.1)  -1.5 ms"])
       = Ok recs
       /\ Forall (fun h =>
            Forall (fun v => forall f, v = Some f ->
                                       nonnegative_float f = true) (rtt h))
            recs.
Proof.
  split; [reflexivity|]. split; [|split].
  - apply (proj1 (timings_never_negative 4300 []) [] (py "1.5") 45%N).
    + reflexivity.
    + discriminate.
  - vm_compute. reflexivity.
  - exact (proj2 (timings_never_negative 4300 _)).
Defined.

(** A timing token with a minus sign loses it. *)
Example minus_sign_is_dropped :
  timing (py "-1.5") = Some (binary64_of_ratio 15 10)
  /\ timing (py "1e3") = Some (binary64_of_ratio 13 1).
Proof. split; vm_compute; reflexivity. Qed.

(** ** What of the text the parser reads *)

(** X5: the first non-blank line is dropped unread: two texts that
    differ in it alone parse alike, even when it is itself a hop line. *)
Theorem first_line_is_never_read (m : N) (h1 h2 rest : str) (c : char) :
  Forall (fun c => is_linebreak c = false) h1 ->
  Exists (fun c => is_space c = false) h1 ->
  Forall (fun c => is_linebreak c = false) h2 ->
  Exists (fun c => is_space c = false) h2 ->
  is_space c = false ->
  parse_traceroute m (h1 ++ LF :: rest ++ [c])
  = parse_traceroute m (h2 ++ LF :: rest ++ [c]).
Proof.
  intros Hlb1 Hne1 Hlb2 Hne2 Hc. rewrite !parse_traceroute_records.
  rewrite !body_lines_after_header by assumption. reflexivity.
Qed.

Lemma first_line_is_never_read_witness :
  let h1 := py " 1  gw.lan (10.0.0.1)  1.0 ms" in
  let h2 := py "traceroute to example.com, 30 hops max" in
  parse_traceroute 4300 (h1 ++ LF :: py " 2  * * " ++ [42%N])
  = parse_traceroute 4300 (h2 ++ LF :: py " 2  * * " ++ [42%N])
  /\ parse_traceroute 4300 (h1 ++ LF :: py " 2  * * " ++ [42%N])
     = Ok [ {| hop := 2; ip := None; hostname := None;
               rtt := [None; None; None] |} ].
Proof.
  intros h1 h2. split.
  - apply first_line_is_never_read.
    + repeat constructor.
    + right. left. reflexivity.
    + repeat constructor.
    + left. reflexivity.
    + reflexivity.
  - vm_compute. reflexivity.
Defined.

Lemma strip_surrounding (ws1 ws2 s : str) :
  Forall (fun c => is_space c = true) ws1 ->
  Forall (fun c => is_space c = true) ws2 ->
  strip (ws1 ++ s ++ ws2) = strip s.
Proof.
  intros H1 H2. unfold strip, strip_by, lstrip_by, rstrip_by.
  rewrite dropwhile_skip by exact H1.
  destruct (dropwhile is_space s) as [|c d] eqn:E.
  - apply dropwhile_nil in E.
    assert (E2 : dropwhile is_space (s ++ ws2) = [])
      by (apply dropwhile_all, Forall_app; auto).
    rewrite E2. reflexivity.
  - assert (Hne : Exists (fun c => is_space c = false) s)
      by (apply dropwhile_Exists; rewrite E; discriminate).
    rewrite (dropwhile_app _ ws2 Hne), E.
    rewrite rev_app_distr, dropwhile_skip by (apply Forall_rev; exact H2).
    reflexivity.
Qed.

(** X6: whitespace around the text, blank lines included, changes
    nothing: leading blank lines do not count as the header. *)
Theorem surrounding_whitespace_ignored (m : N) (ws1 ws2 s : str) :
  Forall (fun c => is_space c = true) ws1 ->
  Forall (fun c => is_space c = true) ws2 ->
  parse_traceroute m (ws1 ++ s ++ ws2) = parse_traceroute m s.
Proof.
  intros H1 H2. unfold parse_traceroute.
  rewrite strip_surrounding by assumption. reflexivity.
Qed.

Lemma surrounding_whitespace_ignored_witness :
  let s := text [py "traceroute to host"; py " 3  * * *"] in
  parse_traceroute 4300 ([LF; LF; 32%N] ++ s ++ [CR; LF; 9%N])
  = parse_traceroute 4300 s
  /\ parse_traceroute 4300 s
     = Ok [ {| hop := 3; ip := None; hostname := None;
               rtt := [None; None; None] |} ].
Proof.
  intros s. split.
  - apply surrounding_whitespace_ignored; repeat constructor.
  - vm_compute. reflexivity.
Defined.

Lemma timings_without_unit (rest : list str) :
  contains rest (py "ms") = false ->
  forall prev, timings_after prev rest = [].
Proof.
  unfold contains.
  induction rest as [|t rest IH]; simpl; intros H prev; [reflexivity|].
  apply orb_false_iff in H. destruct H as [Ht Hrest].
  rewrite (IH Hrest), app_nil_r.
  destruct prev as [p|]; [|reflexivity].
  destruct (str_eqb t (py "ms")) eqn:E; [|reflexivity].
  apply str_eqb_eq in E. subst t. discriminate.
Qed.

(** X8: a hop line without any ["ms"] token has three absent round-trip
    times, and its address is looked for among all the tokens after the
    hop number. *)
Theorem line_without_unit_marker (m : N) (line : str) (h : Hop) :
  hop_of_line m line = Ok (Some h) ->
  contains (split line) (py "ms") = false ->
  rtt h = [None; None; None]
  /\ (ip h, hostname h)
     = scan (re_match ipv4_pattern) (tl (split line)).
Proof.
  intros Hline Hms.
  rewrite hop_of_line_record in Hline. injection Hline as Hrec.
  unfold line_record in Hrec.
  destruct (line_hop m line) as [n|]; [|discriminate].
  injection Hrec as <-. simpl. split.
  - unfold timings. rewrite timings_without_unit by exact Hms.
    reflexivity.
  - rewrite <- surjective_pairing. unfold identity_span.
    rewrite position_contains in Hms.
    destruct (position (py "ms") (split line)); [discriminate|].
    reflexivity.
Qed.

Lemma line_without_unit_marker_witness :
  let line := py " 9  core1.example.net (192.0.2.7)  * *" in
  let h := {| hop := 9; ip := Some (py "192.0.2.7");
              hostname := Some (py "core1.example.net");
              rtt := [None; None; None] |} in
  hop_of_line 4300 line = Ok (Some h)
  /\ contains (split line) (py "ms") = false
  /\ rtt h = [None; None; None]
  /\ (ip h, hostname h)
     = scan (re_match ipv4_pattern) (tl (split line)).
Proof.
  intros line h.
  assert (Hline : hop_of_line 4300 line = Ok (Some h))
    by (vm_compute; reflexivity).
  assert (Hms : contains (split line) (py "ms") = false)
    by (vm_compute; reflexivity).
  split; [exact Hline|]. split; [exact Hms|].
  exact (line_without_unit_marker 4300 line Hline Hms).
Defined.

(** ** One more line *)

Lemma linebreak_is_space (c : char) :
  is_linebreak c = true -> is_space c = true.
Proof.
  unfold is_linebreak, is_space.
  rewrite !orb_true_iff, !andb_true_iff, !N.leb_le, !N.eqb_eq. lia.
Qed.

Lemma not_space_not_linebreak (c : char) :
  is_space c = false -> is_linebreak c = false.
Proof.
  intros H. destruct (is_linebreak c) eqn:E; [|reflexivity].
  apply linebreak_is_space in E. congruence.
Qed.

Lemma splitlines_from_single (line : str) :
  Forall (fun c => is_linebreak c = false) line ->
  forall cur, cur ++ line <> [] -> splitlines_from cur line = [cur ++ line].
Proof.
  induction 1 as [|c line Hc _ IH]; intros cur Hne; simpl.
  - rewrite app_nil_r in *. destruct cur; [congruence | reflexivity].
  - rewrite Hc, IH, <- app_assoc; [reflexivity|].
    rewrite <- app_assoc. simpl. destruct cur; discriminate.
Qed.

(** A text that ends in [c], not a line boundary, and is followed by a
    line feed and one more line. *)
Lemma splitlines_from_snoc (c : char) (line : str) (n : nat) :
  is_linebreak c = false ->
  Forall (fun c => is_linebreak c = false) line ->
  line <> [] ->
  forall a cur,
    (length a <= n)%nat ->
    splitlines_from cur (a ++ c :: LF :: line)
    = splitlines_from cur (a ++ [c]) ++ [line].
Proof.
  intros Hc Hline Hne.
  assert (Htail : splitlines_from [] line = [line])
    by (apply (splitlines_from_single Hline []); exact Hne).
  assert (Hbase : forall cur,
             splitlines_from cur (c :: LF :: line)
             = splitlines_from cur [c] ++ [line]).
  { intros cur. simpl. rewrite Hc. simpl.
    replace (null (cur ++ [c])) with false by (destruct cur; reflexivity).
    destruct line; [congruence|]. rewrite Htail. reflexivity. }
  induction n as [|n IH]; intros a cur Hlen.
  - destruct a; [apply Hbase | simpl in Hlen; lia].
  - destruct a as [|x a]; [apply Hbase|]. simpl in Hlen.
    simpl. destruct (is_linebreak x).
    + destruct a as [|d a].
      * assert (E : (x =? CR)%N && (c =? LF)%N = false).
        { destruct (x =? CR)%N; [|reflexivity].
          destruct (c =? LF)%N eqn:E; [|reflexivity].
          apply N.eqb_eq in E. subst c. discriminate. }
        simpl. rewrite E, Hc. simpl.
        destruct line; [congruence|]. rewrite Htail. reflexivity.
      * simpl in Hlen. simpl.
        destruct ((x =? CR)%N && (d =? LF)%N); simpl; f_equal.
        -- apply IH. lia.
        -- apply (IH (d :: a)). simpl. lia.
    + apply IH. lia.
Qed.

Lemma splitlines_from_nonempty (s : str) :
  forall cur, cur ++ s <> [] -> splitlines_from cur s <> [].
Proof.
  induction s as [|c s IH]; intros cur H; simpl.
  - rewrite app_nil_r in H. destruct cur; [congruence | discriminate].
  - destruct (is_linebreak c); [discriminate|].
    apply IH. rewrite <- app_assoc. simpl. destruct cur; discriminate.
Qed.

(** What [lstrip] leaves of a text whose last character is not a space
    ends in that character, whatever follows it. *)
Lemma dropwhile_last (p : char -> bool) (c : char) (s : str) :
  p c = false ->
  exists x, forall r, dropwhile p (s ++ c :: r) = x ++ c :: r.
Proof.
  intros Hc. induction s as [|d s [x IH]]; simpl.
  - exists []. intros r. rewrite Hc. reflexivity.
  - destruct (p d).
    + exists x. exact IH.
    + exists (d :: s). reflexivity.
Qed.

Lemma records_of_app (m : N) (l1 l2 : list str) :
  records_of m (l1 ++ l2) = records_of m l1 ++ records_of m l2.
Proof. unfold records_of. apply flat_map_app. Qed.

(** The lines after the header of a text with one more line. *)
Lemma body_lines_snoc (s line : str) (c d : char) :
  is_space c = false ->
  is_space d = false ->
  Forall (fun c => is_linebreak c = false) line ->
  body_lines (s ++ c :: LF :: line ++ [d])
  = body_lines (s ++ [c]) ++ [line ++ [d]].
Proof.
  intros Hc Hd Hline. unfold body_lines, strip, strip_by, lstrip_by.
  destruct (@dropwhile_last is_space c s Hc) as [x Hx].
  rewrite (Hx (LF :: line ++ [d])), (Hx []).
  replace (x ++ c :: LF :: line ++ [d])
    with ((x ++ c :: LF :: line) ++ [d])
    by (rewrite <- app_assoc; reflexivity).
  rewrite !rstrip_by_last by assumption.
  rewrite <- app_assoc. simpl app. unfold splitlines.
  rewrite (@splitlines_from_snoc c (line ++ [d]) (length x));
    [ | apply not_space_not_linebreak; exact Hc
      | apply Forall_app; split;
        [exact Hline
        | constructor; [apply not_space_not_linebreak; exact Hd
                       | constructor]]
      | destruct line; discriminate
      | apply Nat.le_refl ].
  assert (Hne : splitlines_from [] (x ++ [c]) <> [])
    by (apply splitlines_from_nonempty; destruct x; discriminate).
  destruct (splitlines_from [] (x ++ [c])); [congruence | reflexivity].
Qed.

(** X7: a text ending in a non-space character, followed by a line feed
    and one more line, parses to the records of the text followed by the
    record of the line, if the line has one. *)
Theorem one_more_line (m : N) (s line : str) (c d : char) :
  is_space c = false ->
  is_space d = false ->
  Forall (fun c => is_linebreak c = false) line ->
  parse_traceroute m (s ++ c :: LF :: line ++ [d])
  = (recs <- parse_traceroute m (s ++ [c]) ;;
     h <- hop_of_line m (line ++ [d]) ;;
     Ok (recs ++ match h with Some h => [h] | None => [] end)).
Proof.
  intros Hc Hd Hline.
  rewrite !parse_traceroute_records, hop_of_line_record. cbn [bind].
  rewrite body_lines_snoc by assumption.
  rewrite records_of_app. unfold records_of at 3. simpl.
  rewrite app_nil_r. reflexivity.
Qed.

Lemma one_more_line_witness :
  let s := py "traceroute to host" ++ LF :: py " 1  gw (10.0.0.1)  1.0 m" in
  let line := py " 2  * * " in
  is_space 115%N = false
  /\ is_space 42%N = false
  /\ Forall (fun c => is_linebreak c = false) line
  /\ parse_traceroute 4300 (s ++ 115%N :: LF :: line ++ [42%N])
     = (recs <- parse_traceroute 4300 (s ++ [115%N]) ;;
        h <- hop_of_line 4300 (line ++ [42%N]) ;;
        Ok (recs ++ match h with Some h => [h] | None => [] end)).
Proof.
  intros s line.
  assert (Hline : Forall (fun c => is_linebreak c = false) line)
    by (repeat constructor).
  split; [reflexivity|]. split; [reflexivity|]. split; [exact Hline|].
  apply one_more_line; [reflexivity | reflexivity | exact Hline].
Defined.

(** * The sampler's pipeline *)

Lemma strip_by_nil (p : char -> bool) (s : str) :
  strip_by p s = [] -> Forall (fun c => p c = true) s.
Proof.
  unfold strip_by, rstrip_by, lstrip_by. intros H.
  apply dropwhile_nil.
  assert (H' : dropwhile p (rev (dropwhile p s)) = [])
    by (apply (f_equal (@rev char)) in H; rewrite rev_involutive in H;
        exact H).
  apply dropwhile_nil in H'.
  destruct (dropwhile p s) as [|c r] eqn:E; [reflexivity|].
  pose proof (dropwhile_head _ _ E) as Hc.
  apply Forall_rev in H'. rewrite rev_involutive in H'.
  inversion H'; congruence.
Qed.

Lemma bytes_split_blank (b : bytes) :
  Forall (fun c => bytes_is_space c = true) b -> bytes_split b = [].
Proof.
  unfold bytes_split. induction 1 as [|c b H _ IH]; simpl; [reflexivity|].
  rewrite H. exact IH.
Qed.

Lemma bytes_split_from_cur (cur b : bytes) :
  cur <> [] -> bytes_split_from cur b <> [].
Proof.
  revert cur; induction b as [|c b IH]; intros cur H; simpl.
  - destruct cur; [congruence | discriminate].
  - destruct (bytes_is_space c).
    + destruct cur; [congruence | discriminate].
    + apply IH. destruct cur; discriminate.
Qed.

Lemma bytes_split_from_nonblank (cur b : bytes) :
  Exists (fun c => bytes_is_space c = false) b ->
  bytes_split_from cur b <> [].
Proof.
  intros H; revert cur; induction H as [c b H | c b _ IH]; intros cur; simpl.
  - rewrite H. apply bytes_split_from_cur. destruct cur; discriminate.
  - destruct (bytes_is_space c).
    + destruct (null cur); [apply IH | discriminate].
    + apply IH.
Qed.

Lemma bytes_split_nonblank (line : bytes) :
  null (bytes_strip line) = false ->
  exists t rest, bytes_split line = t :: rest.
Proof.
  intros H.
  assert (Hne : bytes_split line <> []).
  { apply bytes_split_from_nonblank.
    unfold bytes_strip, strip_by, rstrip_by, lstrip_by in H.
    apply dropwhile_Exists. intros E. rewrite E in H. discriminate. }
  destruct (bytes_split line) as [|t rest]; [congruence | eauto].
Qed.

Lemma bytes_int_outcome (m : N) (b : bytes) :
  (exists n, bytes_int m b = Ok n) \/ bytes_int m b = Raise ValueError.
Proof.
  unfold bytes_int.
  destruct (match bytes_strip b with
            | [] => (false, bytes_strip b)
            | c :: b' =>
                if (c =? 43)%N then (false, b')
                else if (c =? 45)%N then (true, b')
                     else (false, bytes_strip b)
            end) as [neg body].
  destruct (bytes_int_literal body) as [[n cnt]|]; [|auto].
  destruct ((0 <? m)%N && (m <? cnt)%N); eauto.
Qed.

(** No token of a [bytes] line equals a [str], so no timing is read. *)
Lemma bytes_rtts_loop (tokens : list bytes) (xs : list (Z * bytes)) :
  forall acc, dyn_for_in xs (bytes_rtts_body tokens) acc = Done acc.
Proof.
  induction xs as [|[i t] xs IH]; intros acc; simpl; [reflexivity|].
  apply IH.
Qed.

Lemma bytes_collect_rtts_none (tokens : list bytes) :
  bytes_collect_rtts tokens = Done [None; None; None].
Proof.
  unfold bytes_collect_rtts. rewrite bytes_rtts_loop. reflexivity.
Qed.

Lemma bytes_contains_never (l : list bytes) (s : str) :
  bytes_contains l s = false.
Proof. unfold bytes_contains. induction l; simpl; auto. Qed.

Lemma bytes_id_tokens_rest (tokens : list bytes) :
  bytes_id_tokens_of tokens = Done (tl tokens).
Proof.
  unfold bytes_id_tokens_of. rewrite bytes_contains_never.
  cbn [lift dyn_bind]. f_equal.
  destruct (1 <? len tokens) eqn:E.
  - apply Z.ltb_lt in E. unfold len in *.
    rewrite slice_between by lia. apply strictly_between_all.
  - apply slice_tail.
Qed.

(** The scan for the address stops at its first token, with a
    [TypeError]. *)
Lemma bytes_identity_outcome (tokens : list bytes) :
  bytes_identity_of tokens
  = match tl tokens with
    | [] => Done (None, None)
    | _ :: _ => Fail TypeError
    end.
Proof.
  unfold bytes_identity_of. rewrite bytes_id_tokens_rest.
  cbn [dyn_bind]. destruct (tl tokens) as [|t rest]; [|reflexivity].
  cbn. rewrite bytes_contains_never. reflexivity.
Qed.

Section BytesLines.

Variable m : N.

Lemma bytes_hop_of_line_outcome (line : bytes) :
  bytes_hop_of_line m line
  = match bytes_line_hop m line with
    | Some n =>
        if has_identity_token m line then Fail TypeError
        else Done (Some (bare_record n))
    | None => Done None
    end.
Proof.
  unfold bytes_hop_of_line, has_identity_token, bytes_line_hop.
  destruct (null (bytes_strip line)) eqn:Hblank.
  - assert (Hs : bytes_strip line = [])
      by (destruct (bytes_strip line); [reflexivity | discriminate]).
    rewrite (bytes_split_blank (strip_by_nil _ _ Hs)). reflexivity.
  - destruct (bytes_split_nonblank line Hblank) as (t & rest & Hsplit).
    rewrite Hsplit. unfold bytes_hop_number. rewrite getitem_head.
    cbn [lift dyn_bind].
    destruct (bytes_int_outcome m t) as [[n Hn] | Hn]; rewrite Hn;
      cbn [lift dyn_bind dyn_try_except_ValueError]; [|reflexivity].
    rewrite bytes_collect_rtts_none, bytes_identity_outcome.
    cbn [dyn_bind tl]. destruct rest; reflexivity.
Qed.

(** The loop over the lines stops with a [TypeError] at the first hop
    line that has a token after its hop number, and appends a bare
    record for every other hop line. *)
Lemma bytes_lines_loop (lines : list bytes) :
  forall acc,
    dyn_for_in lines (bytes_lines_body m) acc
    = if existsb (has_identity_token m) lines then Fail TypeError
      else Done (acc ++ flat_map
                          (fun line => match bytes_line_hop m line with
                                       | Some n => [bare_record n]
                                       | None => []
                                       end) lines).
Proof.
  induction lines as [|line lines IH]; intros acc; simpl.
  - rewrite app_nil_r. reflexivity.
  - unfold bytes_lines_body at 1. rewrite bytes_hop_of_line_outcome.
    unfold has_identity_token at 2.
    destruct (bytes_line_hop m line) as [n|] eqn:Hhop.
    + unfold has_identity_token at 1. rewrite Hhop.
      destruct (Nat.leb 2 (length (bytes_split line))); [reflexivity|].
      cbn. rewrite IH.
      destruct (existsb (has_identity_token m) lines); [reflexivity|].
      rewrite <- app_assoc. reflexivity.
    + cbn. apply IH.
Qed.

Lemma parse_traceroute_bytes_outcome (b : bytes) :
  parse_traceroute_bytes m b
  = if existsb (has_identity_token m) (bytes_body_lines b)
    then Fail TypeError
    else Done (flat_map
                 (fun line => match bytes_line_hop m line with
                              | Some n => [bare_record n]
                              | None => []
                              end) (bytes_body_lines b)).
Proof.
  unfold parse_traceroute_bytes, bytes_body_lines.
  destruct (bytes_splitlines (bytes_strip b)) as [|header lines];
    [reflexivity|].
  cbn [null]. rewrite slice_tail, bytes_lines_loop. reflexivity.
Qed.

End BytesLines.

Lemma execute_traceroute_exits (os : list str -> spawn) (destination : str)
  (rc : Z) (out err : bytes) :
  forallb fs_encodable destination = true ->
  existsb (N.eqb 0) destination = false ->
  os [py "traceroute"; py "-I"; destination] = Exits rc out err ->
  execute_traceroute os destination = Ok (PyBytes out).
Proof.
  intros Henc Hnul Hos. unfold execute_traceroute, subprocess_run.
  assert (Hconv : fs_convert_all [py "traceroute"; py "-I"; destination]
                  = Ok tt).
  { cbn [fs_convert_all].
    change (fs_convert (py "traceroute")) with (Ok tt).
    change (fs_convert (py "-I")) with (Ok tt).
    cbn [bind]. unfold fs_convert. rewrite Henc, Hnul. reflexivity. }
  rewrite Hconv, Hos. reflexivity.
Qed.

(** Whatever [execute_traceroute] returns is a [bytes] object. *)
Lemma execute_traceroute_bytes (os : list str -> spawn) (destination : str)
  (v : pyvalue) :
  execute_traceroute os destination = Ok v -> exists b, v = PyBytes b.
Proof.
  unfold execute_traceroute, subprocess_run.
  destruct (fs_convert_all_outcome [py "traceroute"; py "-I"; destination])
    as [H | [H | H]]; rewrite H; try discriminate.
  destruct (os [py "traceroute"; py "-I"; destination]) as [[|]|rc out err];
    try discriminate.
  intros [= <-]. eauto.
Qed.

(** A destination that cannot be encoded, such as a lone surrogate, stops
    the pipeline before any program is started. *)
Example lone_surrogate_destination (os : list str -> spawn) (m : N) :
  execute_traceroute os [55296%N] = Raise UnicodeEncodeError
  /\ execute_traceroute os (py "a" ++ [0%N; 55296%N])
     = Raise UnicodeEncodeError
  /\ trace_once os m [55296%N] = Fail (Builtin UnicodeEncodeError).
Proof. repeat split; reflexivity. Qed.

(** X9: for a destination that can be handed to the operating system
    (encodable, without NUL), when the tracer runs and prints, after its
    first line, a hop line with anything after the hop number, the parse
    of what [execute_traceroute] returned raises [TypeError]: the output
    is a [bytes] object and line 109 strips its tokens with a [str].
    (Under the interpreter's default warning settings; see
    [bytes_eq_str].) *)
Theorem trace_once_raises_TypeError (os : list str -> spawn) (m : N)
  (destination : str) (rc : Z) (out err : bytes) :
  forallb fs_encodable destination = true ->
  existsb (N.eqb 0) destination = false ->
  os [py "traceroute"; py "-I"; destination] = Exits rc out err ->
  existsb (has_identity_token m) (bytes_body_lines out) = true ->
  trace_once os m destination = Fail TypeError.
Proof.
  intros Henc Hnul Hos Hline. unfold trace_once.
  rewrite (execute_traceroute_exits os destination Henc Hnul Hos).
  cbn [lift dyn_bind parse_traceroute_value].
  rewrite parse_traceroute_bytes_outcome, Hline. reflexivity.
Qed.

Lemma trace_once_raises_TypeError_witness :
  let out :=
    text [py "traceroute to example.com (93.184.216.34), 30 hops max";
          py " 1  gw.lan (10.0.0.1)  0.334 ms  0.311 ms  0.302 ms";
          py " 2  * * *"] in
  let os := fun _ : list str => Exits 0 out [] in
  forallb fs_encodable (py "example.com") = true
  /\ existsb (N.eqb 0) (py "example.com") = false
  /\ existsb (has_identity_token 4300) (bytes_body_lines out) = true
  /\ trace_once os 4300 (py "example.com") = Fail TypeError.
Proof.
  intros out os.
  assert (Hline : existsb (has_identity_token 4300) (bytes_body_lines out)
                  = true) by (vm_compute; reflexivity).
  split; [reflexivity|]. split; [reflexivity|]. split; [exact Hline|].
  exact (@trace_once_raises_TypeError os 4300 (py "example.com") 0 out []
           eq_refl eq_refl eq_refl Hline).
Defined.

(** X10: whatever the tracer printed, the records that come out of the
    pipeline hold a hop number and nothing else: no address, no hostname
    and no round-trip time ever survives. *)
Theorem trace_once_records_are_bare (os : list str -> spawn) (m : N)
  (destination : str) (recs : list Hop) :
  trace_once os m destination = Done recs ->
  Forall (fun h => ip h = None /\ hostname h = None
                   /\ rtt h = [None; None; None]) recs.
Proof.
  unfold trace_once.
  destruct (execute_traceroute os destination) as [v|e] eqn:E;
    [|discriminate].
  destruct (execute_traceroute_bytes _ _ E) as [b ->].
  cbn [lift dyn_bind parse_traceroute_value].
  rewrite parse_traceroute_bytes_outcome.
  destruct (existsb (has_identity_token m) (bytes_body_lines b));
    [discriminate|].
  intros [= <-]. apply Forall_forall. intros h Hin.
  apply in_flat_map in Hin. destruct Hin as (line & _ & Hin).
  destruct (bytes_line_hop m line) as [n|]; [|contradiction].
  destruct Hin as [<- | []]. auto.
Qed.

Lemma trace_once_records_are_bare_witness :
  let out := text [py "traceroute to example.com"; py " 1"; py "2 "] in
  let os := fun _ : list str => Exits 0 out [] in
  trace_once os 4300 (py "example.com")
  = Done [bare_record 1; bare_record 2]
  /\ Forall (fun h => ip h = None /\ hostname h = None
                      /\ rtt h = [None; None; None])
       [bare_record 1; bare_record 2].
Proof.
  intros out os.
  assert (H : trace_once os 4300 (py "example.com")
              = Done [bare_record 1; bare_record 2])
    by (vm_compute; reflexivity).
  split; [exact H|].
  exact (trace_once_records_are_bare os 4300 (py "example.com") H).
Defined.

(** * The sampling loop *)

Section SamplerProperties.

Variable os : Z -> list str -> spawn.
Variable clock : Z -> str.
Variable m : N.

(** The samples of round [i]: the hops of its trace with the round's
    number and time. *)
Definition round_samples (destination : str) (i : Z) : list Sample :=
  match trace_once (os i) m destination with
  | Done hops =>
      map (fun hop => {| sample := hop; trace_num := i + 1;
                         timestamp := clock i |}) hops
  | Fail _ => []
  end.

Lemma tag_hops_map (i : Z) (tstamp : str) (hops : list Hop) :
  forall all_hops,
    tag_hops i tstamp hops all_hops
    = Done (all_hops
            ++ map (fun hop => {| sample := hop; trace_num := i + 1;
                                  timestamp := tstamp |}) hops).
Proof.
  unfold tag_hops.
  induction hops as [|hop hops IH]; intros all_hops; simpl.
  - rewrite app_nil_r. reflexivity.
  - rewrite IH, <- app_assoc. reflexivity.
Qed.

(** The loop invariant: rounds that complete extend the log by their
    schedule and the list by their samples. *)
Lemma sample_rounds_done (destination : str) (interval : Z)
  (rounds : list Z) :
  forall log all_hops log' samples,
    sample_rounds os clock m destination interval rounds log all_hops
    = (log', Done samples) ->
    log' = log ++ schedule destination interval rounds
    /\ samples = all_hops ++ flat_map (round_samples destination) rounds.
Proof.
  induction rounds as [|i rounds IH]; intros log all_hops log' samples;
    simpl.
  - intros [= <- <-]. rewrite !app_nil_r. auto.
  - unfold round_samples at 1.
    destruct (if 0 <? i then time_sleep interval else Ok tt) as [[]|e];
      [|discriminate].
    destruct (trace_once (os i) m destination) as [hops|e];
      [|discriminate].
    rewrite tag_hops_map. intros H. apply IH in H. destruct H as [-> ->].
    rewrite <- !app_assoc. split; [|reflexivity].
    destruct (0 <? i); rewrite <- ?app_assoc; reflexivity.
Qed.

End SamplerProperties.

Lemma schedule_traces (destination : str) (interval : Z) (rounds : list Z) :
  length (filter is_trace (schedule destination interval rounds))
  = length rounds.
Proof.
  unfold schedule. induction rounds as [|i rounds IH]; simpl;
    [reflexivity|].
  rewrite filter_app, length_app, IH.
  destruct (0 <? i); reflexivity.
Qed.

Lemma schedule_sleeps (destination : str) (interval : Z) (n : nat) :
  forall k,
    length (filter (fun e => negb (is_trace e))
              (schedule destination interval (map Z.of_nat (seq k n))))
    = match k with O => (n - 1)%nat | S _ => n end.
Proof.
  unfold schedule. induction n as [|n IH]; intros k; simpl.
  - destruct k; reflexivity.
  - rewrite filter_app, length_app, (IH (S k)).
    destruct k as [|k]; simpl.
    + lia.
    + replace (0 <? Z.pos (Pos.of_succ_nat k)) with true by reflexivity.
      simpl. lia.
Qed.

(** X11: a sampling loop that completes has run the tracer once per
    round and has slept [interval] seconds before every round but the
    first: [num_traces] traces and [num_traces - 1] sleeps, alternating,
    a trace first. *)
Theorem sampling_schedule (os : Z -> list str -> spawn) (clock : Z -> str)
  (m : N) (destination : str) (num_traces interval : Z)
  (log : list event) (samples : list Sample) :
  sample_traces os clock m destination num_traces interval
  = (log, Done samples) ->
  log = schedule destination interval (py_range num_traces)
  /\ length (filter is_trace log) = Z.to_nat num_traces
  /\ length (filter (fun e => negb (is_trace e)) log)
     = (Z.to_nat num_traces - 1)%nat.
Proof.
  unfold sample_traces. intros H.
  apply sample_rounds_done in H. destruct H as [-> _]. simpl app.
  split; [reflexivity|]. split.
  - rewrite schedule_traces. unfold py_range.
    rewrite length_map, length_seq. reflexivity.
  - unfold py_range. apply (schedule_sleeps destination interval _ 0).
Qed.

Lemma sampling_schedule_witness :
  let out := text [py "traceroute to example.com"; py " 1"; py " 2"] in
  let os := fun (_ : Z) (_ : list str) => Exits 0 out [] in
  let clock := fun _ : Z => py "12:00:00" in
  let d := py "example.com" in
  exists samples,
    sample_traces os clock 4300 d 3 5
    = ([Traced d; Slept 5; Traced d; Slept 5; Traced d], Done samples)
    /\ [Traced d; Slept 5; Traced d; Slept 5; Traced d]
       = schedule d 5 (py_range 3).
Proof.
  intros out os clock d. eexists.
  assert (H : sample_traces os clock 4300 d 3 5
              = ([Traced d; Slept 5; Traced d; Slept 5; Traced d],
                 Done (flat_map (round_samples os clock 4300 d)
                         (py_range 3)))) by (vm_compute; reflexivity).
  split; [exact H|].
  exact (proj1 (sampling_schedule os clock 4300 d 3 5 H)).
Defined.

Lemma sorted_app (l1 l2 : list Z) :
  StronglySorted Z.le l1 ->
  StronglySorted Z.le l2 ->
  (forall x y, In x l1 -> In y l2 -> x <= y) ->
  StronglySorted Z.le (l1 ++ l2).
Proof.
  intros H1 H2 H. induction H1 as [|x l1 Hs IH Hx]; simpl; [exact H2|].
  constructor.
  - apply IH. intros a b Ha Hb. apply H; [right; exact Ha | exact Hb].
  - apply Forall_app. split; [exact Hx|].
    apply Forall_forall. intros y Hy. apply H; [left; reflexivity | exact Hy].
Qed.

Lemma round_samples_In (os : Z -> list str -> spawn) (clock : Z -> str)
  (m : N) (destination : str) (i : Z) (x : Sample) :
  In x (round_samples os clock m destination i) ->
  trace_num x = i + 1
  /\ timestamp x = clock i
  /\ exists hops,
       trace_once (os i) m destination = Done hops /\ In (sample x) hops.
Proof.
  unfold round_samples.
  destruct (trace_once (os i) m destination) as [hops|e]; [|contradiction].
  rewrite in_map_iff. intros (hop & <- & Hin). simpl. eauto.
Qed.

Lemma round_samples_sorted (os : Z -> list str -> spawn) (clock : Z -> str)
  (m : N) (destination : str) (n : nat) :
  forall k,
    StronglySorted Z.le
      (map trace_num
         (flat_map (round_samples os clock m destination)
            (map Z.of_nat (seq k n))))
    /\ Forall (fun t => Z.of_nat k + 1 <= t)
         (map trace_num
            (flat_map (round_samples os clock m destination)
               (map Z.of_nat (seq k n)))).
Proof.
  induction n as [|n IH]; intros k; simpl.
  - split; constructor.
  - destruct (IH (S k)) as [Hsorted Hlow].
    assert (Hround : Forall (fun t => t = Z.of_nat k + 1)
                       (map trace_num
                          (round_samples os clock m destination
                             (Z.of_nat k)))).
    { apply Forall_forall. intros t Ht. apply in_map_iff in Ht.
      destruct Ht as (x & <- & Hx).
      apply round_samples_In in Hx. tauto. }
    rewrite map_app. rewrite Forall_forall in Hround, Hlow. split.
    + apply sorted_app; [|exact Hsorted|].
      * induction (map trace_num
                     (round_samples os clock m destination (Z.of_nat k)))
          as [|t l IHl]; constructor.
        -- apply IHl. intros x Hx. apply Hround. right. exact Hx.
        -- apply Forall_forall. intros y Hy.
           rewrite (Hround t) by (left; reflexivity).
           rewrite (Hround y) by (right; exact Hy). lia.
      * intros x y Hx Hy. apply Hround in Hx. apply Hlow in Hy. lia.
    + apply Forall_forall. intros t Ht. apply in_app_or in Ht.
      destruct Ht as [Ht | Ht].
      * apply Hround in Ht. lia.
      * apply Hlow in Ht. lia.
Qed.

(** X12: the samples of a completed sampling loop come round by round:
    each carries the number of its round, between 1 and [num_traces],
    the time read in that round and a hop of that round's trace, and the
    round numbers never decrease along the list. *)
Theorem samples_are_tagged (os : Z -> list str -> spawn) (clock : Z -> str)
  (m : N) (destination : str) (num_traces interval : Z)
  (log : list event) (samples : list Sample) :
  sample_traces os clock m destination num_traces interval
  = (log, Done samples) ->
  Forall (fun x =>
            1 <= trace_num x <= num_traces
            /\ timestamp x = clock (trace_num x - 1)
            /\ exists hops,
                 trace_once (os (trace_num x - 1)) m destination
                 = Done hops
                 /\ In (sample x) hops) samples
  /\ StronglySorted Z.le (map trace_num samples).
Proof.
  unfold sample_traces. intros H.
  apply sample_rounds_done in H. destruct H as [_ ->]. simpl app.
  split.
  - apply Forall_forall. intros x Hx. apply in_flat_map in Hx.
    destruct Hx as (i & Hi & Hx).
    apply round_samples_In in Hx. destruct Hx as (Hnum & Hts & Hhops).
    unfold py_range in Hi. apply in_map_iff in Hi.
    destruct Hi as (k & <- & Hk). apply in_seq in Hk.
    rewrite Hnum. replace (Z.of_nat k + 1 - 1) with (Z.of_nat k) by lia.
    split; [lia|]. split; assumption.
  - apply round_samples_sorted.
Qed.

Lemma samples_are_tagged_witness :
  let out := text [py "traceroute to example.com"; py " 1"] in
  let os := fun (_ : Z) (_ : list str) => Exits 0 out [] in
  let clock := fun i : Z => if i =? 0 then py "12:00:00" else py "12:00:05" in
  let d := py "example.com" in
  let samples :=
    [ {| sample := bare_record 1; trace_num := 1;
         timestamp := py "12:00:00" |};
      {| sample := bare_record 1; trace_num := 2;
         timestamp := py "12:00:05" |} ] in
  sample_traces os clock 4300 d 2 5
  = ([Traced d; Slept 5; Traced d], Done samples)
  /\ StronglySorted Z.le (map trace_num samples).
Proof.
  intros out os clock d samples.
  assert (H : sample_traces os clock 4300 d 2 5
              = ([Traced d; Slept 5; Traced d], Done samples))
    by (vm_compute; reflexivity).
  split; [exact H|].
  exact (proj2 (samples_are_tagged os clock 4300 d 2 5 H)).
Defined.

Lemma trace_once_exits (os : list str -> spawn) (m : N) (destination : str)
  (rc : Z) (out err : bytes) :
  forallb fs_encodable destination = true ->
  existsb (N.eqb 0) destination = false ->
  os [py "traceroute"; py "-I"; destination] = Exits rc out err ->
  trace_once os m destination = parse_traceroute_bytes m out.
Proof.
  intros Henc Hnul Hos. unfold trace_once.
  rewrite (execute_traceroute_exits os destination Henc Hnul Hos).
  reflexivity.
Qed.

(** X13: for a destination that can be handed to the operating system
    (encodable, without NUL), when the tracer's first run prints a hop
    line with anything after the hop number, the sampling loop ends
    there with a [TypeError]: one trace was run, nothing was slept and
    no sample is returned. *)
Theorem first_trace_ends_the_sampling (os : Z -> list str -> spawn)
  (clock : Z -> str) (m : N) (destination : str)
  (num_traces interval rc : Z) (out err : bytes) :
  1 <= num_traces ->
  forallb fs_encodable destination = true ->
  existsb (N.eqb 0) destination = false ->
  os 0 [py "traceroute"; py "-I"; destination] = Exits rc out err ->
  existsb (has_identity_token m) (bytes_body_lines out) = true ->
  sample_traces os clock m destination num_traces interval
  = ([Traced destination], Fail TypeError).
Proof.
  intros Hn Henc Hnul Hos Hline. unfold sample_traces, py_range.
  destruct (Z.to_nat num_traces) as [|n] eqn:E; [lia|].
  cbn [seq map sample_rounds]. change (0 <? Z.of_nat 0) with false.
  cbn iota. change (Z.of_nat 0) with 0.
  rewrite (trace_once_exits (os 0) m destination Henc Hnul Hos).
  rewrite parse_traceroute_bytes_outcome, Hline. reflexivity.
Qed.

Lemma first_trace_ends_the_sampling_witness :
  let out :=
    text [py "traceroute to example.com (93.184.216.34), 30 hops max";
          py " 1  gw.lan (10.0.0.1)  0.334 ms  0.311 ms  0.302 ms"] in
  let os := fun (_ : Z) (_ : list str) => Exits 0 out [] in
  let clock := fun _ : Z => py "12:00:00" in
  existsb (has_identity_token 4300) (bytes_body_lines out) = true
  /\ sample_traces os clock 4300 (py "example.com") 3 5
     = ([Traced (py "example.com")], Fail TypeError).
Proof.
  intros out os clock.
  assert (Hline : existsb (has_identity_token 4300) (bytes_body_lines out)
                  = true) by (vm_compute; reflexivity).
  split; [exact Hline|].
  apply (@first_trace_ends_the_sampling os clock 4300 (py "example.com")
           3 5 0 out []);
    [lia | reflexivity | reflexivity | reflexivity | exact Hline].
Defined.

(** * Spacing and line terminators *)

(** X14: a line is read through its tokens only: two lines with the same
    tokens, however they are spaced, give the same record, or both
    none. *)
Theorem spacing_is_irrelevant (m : N) (line1 line2 : str) :
  split line1 = split line2 ->
  hop_of_line m line1 = hop_of_line m line2.
Proof.
  intros H. rewrite !hop_of_line_record.
  unfold line_record, line_hop, first_token. rewrite H. reflexivity.
Qed.

Lemma spacing_is_irrelevant_witness :
  let line1 := py "1  gw.lan (10.0.0.1)  0.334 ms" in
  let line2 := [9%N] ++ py "1 gw.lan" ++ [9%N; 160%N]
               ++ py "(10.0.0.1) 0.334   ms " in
  split line1 = split line2
  /\ hop_of_line 4300 line1 = hop_of_line 4300 line2.
Proof.
  intros line1 line2.
  assert (H : split line1 = split line2) by (vm_compute; reflexivity).
  split; [exact H|].
  exact (spacing_is_irrelevant 4300 line1 line2 H).
Defined.

Lemma splitlines_from_crlf (h : str) :
  Forall (fun c => is_linebreak c = false) h ->
  forall cur rest,
    splitlines_from cur (h ++ CR :: LF :: rest)
    = (cur ++ h) :: splitlines_from [] rest.
Proof.
  induction 1 as [|c h Hc _ IH]; intros cur rest.
  - simpl. rewrite app_nil_r. reflexivity.
  - simpl. rewrite Hc, IH, <- app_assoc. reflexivity.
Qed.

(** Lines joined by LF or by CR LF split into themselves, when the last
    one is not empty. *)
Lemma splitlines_join (sep : str) (lines : list str) :
  sep = [LF] \/ sep = [CR; LF] ->
  Forall (Forall (fun c => is_linebreak c = false)) lines ->
  last lines [] <> [] ->
  splitlines (join_lines sep lines) = lines.
Proof.
  intros Hsep Hlines. unfold splitlines.
  induction Hlines as [|l lines Hl Hlines IH]; intros Hlast;
    [reflexivity|].
  destruct lines as [|l' lines'].
  - simpl in *. apply (splitlines_from_single Hl []). exact Hlast.
  - change (join_lines sep (l :: l' :: lines'))
      with (l ++ sep ++ join_lines sep (l' :: lines')).
    assert (IH' : splitlines_from [] (join_lines sep (l' :: lines'))
                  = l' :: lines') by (apply IH; exact Hlast).
    destruct Hsep as [-> | ->]; cbn [app] in *.
    + rewrite splitlines_from_line by exact Hl. rewrite IH'. reflexivity.
    + rewrite splitlines_from_crlf by exact Hl. rewrite IH'. reflexivity.
Qed.

Lemma join_lines_last (sep : str) (lines : list str) (r : str) (c : char) :
  last lines [] = r ++ [c] ->
  exists x, join_lines sep lines = x ++ [c].
Proof.
  induction lines as [|l lines IH]; intros H.
  - simpl in H. destruct r; discriminate.
  - destruct lines as [|l' lines'].
    + simpl in *. exists r. exact H.
    + destruct (IH H) as [x Hx].
      change (join_lines sep (l :: l' :: lines'))
        with (l ++ sep ++ join_lines sep (l' :: lines')).
      rewrite Hx. exists (l ++ sep ++ x).
      rewrite <- !app_assoc. reflexivity.
Qed.

Lemma join_lines_head (sep : str) (lines : list str) (a : char) (r : str) :
  exists x, join_lines sep ((a :: r) :: lines) = a :: x.
Proof.
  destruct lines as [|l' lines'].
  - exists r. reflexivity.
  - exists (r ++ sep ++ join_lines sep (l' :: lines')). reflexivity.
Qed.

(** A text that neither begins nor ends with whitespace is its own
    [strip()]. *)
Lemma strip_fixed (a c : char) (x y : str) :
  is_space a = false ->
  is_space c = false ->
  a :: x = y ++ [c] ->
  strip (a :: x) = a :: x.
Proof.
  intros Ha Hc E. unfold strip, strip_by, lstrip_by.
  simpl dropwhile. rewrite Ha, E.
  apply rstrip_by_last. exact Hc.
Qed.

(** X15: the line terminator does not matter: lines joined by CR LF
    parse as the same lines joined by LF. *)
Theorem crlf_parses_as_lf (m : N) (a c : char) (first r : str)
  (lines : list str) :
  is_space a = false ->
  is_space c = false ->
  last ((a :: first) :: lines) [] = r ++ [c] ->
  Forall (Forall (fun c => is_linebreak c = false))
    ((a :: first) :: lines) ->
  parse_traceroute m (join_lines [CR; LF] ((a :: first) :: lines))
  = parse_traceroute m (join_lines [LF] ((a :: first) :: lines)).
Proof.
  intros Ha Hc Hlast Hlines.
  assert (Hne : last ((a :: first) :: lines) [] <> [])
    by (rewrite Hlast; destruct r; discriminate).
  assert (Hbody : forall sep,
             sep = [LF] \/ sep = [CR; LF] ->
             body_lines (join_lines sep ((a :: first) :: lines)) = lines).
  { intros sep Hsep. unfold body_lines.
    destruct (join_lines_head sep lines a first) as [x Hx].
    destruct (@join_lines_last sep _ r c Hlast) as [y Hy].
    rewrite Hx in Hy |- *.
    rewrite (@strip_fixed a c x y Ha Hc Hy), <- Hx.
    rewrite (@splitlines_join sep _ Hsep Hlines Hne). reflexivity. }
  rewrite !parse_traceroute_records, !Hbody by auto. reflexivity.
Qed.

Lemma crlf_parses_as_lf_witness :
  let first := py "raceroute to example.com" in
  let lines := [py " 1  gw.lan (10.0.0.1)  0.334 ms"; py " 2  * * *"] in
  parse_traceroute 4300 (join_lines [CR; LF] ((116%N :: first) :: lines))
  = parse_traceroute 4300 (join_lines [LF] ((116%N :: first) :: lines))
  /\ exists h1 h2,
       parse_traceroute 4300 (join_lines [LF] ((116%N :: first) :: lines))
       = Ok [h1; h2].
Proof.
  intros first lines. split.
  - apply (@crlf_parses_as_lf 4300 116%N 42%N first (py " 2  * * ") lines).
    + reflexivity.
    + reflexivity.
    + reflexivity.
    + repeat constructor.
  - eexists. eexists. vm_compute. reflexivity.
Defined.
